(** * Conway's Game of Life (src/main.ts): a shallow embedding

    The program keeps one global [state] record holding four cell buffers
    ([previous], [current], [next], [changed]) and an RGBA pixel buffer.
    Every function of the simulation core is embedded below as a pure
    function on that record, in the order of the source file. *)

From stdpp Require Import base numbers list.

Local Open Scope Z_scope.

(** ** JavaScript values *)

(** A JavaScript number as this program produces them: an integer (all
    the counts and indices stay far below 2^53) or [NaN]. *)
Inductive number : Type :=
  | Num (z : Z)
  | NaN.

(** [a + b]: [NaN] is absorbing. *)
Definition add (a b : number) : number :=
  match a, b with
  | Num x, Num y => Num (x + y)
  | _, _ => NaN
  end.

(** [a < b], [a > b], [a === b]: every comparison with [NaN] is false. *)
Definition lt (a b : number) : bool :=
  match a, b with
  | Num x, Num y => bool_decide (x < y)
  | _, _ => false
  end.

Definition gt (a b : number) : bool :=
  match a, b with
  | Num x, Num y => bool_decide (x > y)
  | _, _ => false
  end.

Definition strict_eq (a b : number) : bool :=
  match a, b with
  | Num x, Num y => bool_decide (x = y)
  | _, _ => false
  end.

(** A value read from a [boolean[]] is a boolean or [undefined]; the
    latter is [None].  [Number(v)] and the truthiness test of [if (v)]. *)
Definition Number_of (v : option bool) : number :=
  match v with
  | Some true => Num 1
  | Some false => Num 0
  | None => NaN
  end.

Definition truthy (v : option bool) : bool :=
  match v with
  | Some true => true
  | _ => false
  end.

(** [c !== v] for a boolean [c] and a value [v] read from an array. *)
Definition strict_ne (c : bool) (v : option bool) : bool :=
  match v with
  | Some d => xorb c d
  | None => true
  end.

(** ** Cell buffers

    [type CellPool = boolean[]].  A JavaScript array can have empty slots
    (an assignment past the end extends it); an empty slot is [None] and
    reads as [undefined], like every index outside the array. *)
Abbreviation CellPool := (list (option bool)).

(** [cells[i]] *)
Definition get (cells : CellPool) (i : Z) : option bool :=
  if decide (0 <= i) then mjoin (cells !! Z.to_nat i) else None.

(** [cells[i] = v]: in place inside the array, extending it with empty
    slots past its end.  A negative [i] is not an array index: the
    assignment then makes a property next to the slots and leaves them
    as they are (the model keeps the slots only; the program never
    assigns at a negative index from a pointer position inside the
    canvas). *)
Definition assign (cells : CellPool) (i : Z) (v : bool) : CellPool :=
  if decide (i < 0) then cells
  else
    let n := Z.to_nat i in
    if decide (n < length cells)%nat then <[n := Some v]> cells
    else cells ++ replicate (n - length cells)%nat None ++ [Some v].

(** [for (let i = 0; i < n; i++) body], threading the mutated object. *)
Definition for_loop {S : Type} (n : nat) (body : Z -> S -> S) (s : S) : S :=
  foldl (fun acc i => body (Z.of_nat i) acc) s (seq 0 n).

(** ** Constants *)

Definition CELL_COLORS : list Z := [255; 0].

Definition CELLS_PER_ROW : Z := 100.
Definition BUFFER_SIZE : Z := CELLS_PER_ROW * CELLS_PER_ROW.

(** ** Buffer helpers *)

Definition createBuffer (size : Z) (defaultValue : bool) : CellPool :=
  replicate (Z.to_nat size) (Some defaultValue).

(** [buffer.slice()]: a fresh array with the same slots. *)
Definition cloneBuffer (buffer : CellPool) : CellPool := buffer.

(** [a.map((cell, index) => cell !== b[index])]; [map] skips empty slots
    and leaves them empty in the result. *)
Definition diffBuffers (a b : CellPool) : CellPool :=
  imap (fun index slot =>
          match slot with
          | Some cell => Some (strict_ne cell (get b (Z.of_nat index)))
          | None => None
          end) a.

(** ** Neighbour count *)

Definition findNeighbors (cells : CellPool) (index : Z) : number :=
  let t := index - CELLS_PER_ROW in
  let b := index + CELLS_PER_ROW in
  let l := index - 1 in
  let r := index + 1 in
  let tl := t - 1 in
  let tr := t + 1 in
  let bl := b - 1 in
  let br := b + 1 in
  let neighbors := [t; b; l; r; tl; tr; bl; br] in
  foldl (fun count neighbor => add count (Number_of (get cells neighbor)))
        (Num 0) neighbors.

(** ** The global state

    [lastLoop] (a wall-clock time stamp read only by the performance
    report) is left out. *)
Record GameState : Type := mkState {
  isRunning : bool;
  isMousePressed : bool;
  bitsChanged : Z;
  previous : CellPool;
  current : CellPool;
  next : CellPool;
  changed : CellPool;
  pixels : list Z
}.

Definition with_isRunning (v : bool) (s : GameState) : GameState :=
  mkState v (isMousePressed s) (bitsChanged s) (previous s) (current s)
          (next s) (changed s) (pixels s).

Definition with_isMousePressed (v : bool) (s : GameState) : GameState :=
  mkState (isRunning s) v (bitsChanged s) (previous s) (current s)
          (next s) (changed s) (pixels s).

Definition with_previous (v : CellPool) (s : GameState) : GameState :=
  mkState (isRunning s) (isMousePressed s) (bitsChanged s) v (current s)
          (next s) (changed s) (pixels s).

Definition with_current (v : CellPool) (s : GameState) : GameState :=
  mkState (isRunning s) (isMousePressed s) (bitsChanged s) (previous s) v
          (next s) (changed s) (pixels s).

Definition with_next (v : CellPool) (s : GameState) : GameState :=
  mkState (isRunning s) (isMousePressed s) (bitsChanged s) (previous s)
          (current s) v (changed s) (pixels s).

Definition with_changed (v : CellPool) (s : GameState) : GameState :=
  mkState (isRunning s) (isMousePressed s) (bitsChanged s) (previous s)
          (current s) (next s) v (pixels s).

Definition with_render (bits : Z) (data : list Z) (s : GameState) : GameState :=
  mkState (isRunning s) (isMousePressed s) bits (previous s) (current s)
          (next s) (changed s) data.

(** [new ImageData(CELLS_PER_ROW, CELLS_PER_ROW)]: four zero bytes per
    pixel. *)
Definition state0 : GameState :=
  {| isRunning := false;
     isMousePressed := false;
     bitsChanged := 0;
     previous := createBuffer BUFFER_SIZE false;
     current := createBuffer BUFFER_SIZE false;
     next := createBuffer BUFFER_SIZE false;
     changed := createBuffer BUFFER_SIZE false;
     pixels := replicate (Z.to_nat (4 * (CELLS_PER_ROW * CELLS_PER_ROW))) 0 |}.

(** ** tick *)

(** The body of the loop of [tick] at index [i]: it reads [current] and
    writes [next]. *)
Definition tick_body (current : CellPool) (i : Z) (next : CellPool) : CellPool :=
  let neighbors := findNeighbors current i in
  let alive := get current i in
  let next :=
    if truthy alive && (lt neighbors (Num 2) || gt neighbors (Num 3))
    then assign next i false else next in
  let next :=
    if negb (truthy alive) && strict_eq neighbors (Num 3)
    then assign next i true else next in
  next.

(** The whole loop; [current] is not written inside it, so its length is
    the same at every test of the loop condition. *)
Definition tick_loop (current next : CellPool) : CellPool :=
  for_loop (length current) (tick_body current) next.

Definition tick (state : GameState) : GameState :=
  let state := with_previous (cloneBuffer (current state)) state in
  if negb (isRunning state) then state
  else
    let state := with_next (tick_loop (current state) (next state)) state in
    with_current (cloneBuffer (next state)) state.

(** ** render *)

(** [CELL_COLORS[n]]: [undefined] for [NaN] and outside the tuple. *)
Definition color_of (n : number) : option Z :=
  match n with
  | Num z => if decide (0 <= z) then CELL_COLORS !! Z.to_nat z else None
  | NaN => None
  end.

(** A store into the [Uint8ClampedArray] of the image: the value is
    clamped to a byte ([undefined] becomes 0), and a store outside the
    array is dropped. *)
Definition toUint8Clamp (v : option Z) : Z :=
  match v with
  | Some z => Z.max 0 (Z.min 255 z)
  | None => 0
  end.

Definition store (data : list Z) (index : Z) (v : option Z) : list Z :=
  if decide (0 <= index) then <[Z.to_nat index := toUint8Clamp v]> data
  else data.

(** The body of the loop of [render] at cell [i], on the pair
    ([state.bitsChanged], [state.pixels.data]). *)
Definition render_body (current changed : CellPool) (i : Z)
    (acc : Z * list Z) : Z * list Z :=
  let '(bits, data) := acc in
  if negb (truthy (get changed i)) then acc
  else
    let bits := bits + 1 in
    let x := Z.rem i CELLS_PER_ROW in
    let y := i / CELLS_PER_ROW in
    let index := (y * CELLS_PER_ROW + x) * 4 in
    let color := color_of (Number_of (get current i)) in
    let data := store data index color in
    let data := store data (index + 1) color in
    let data := store data (index + 2) color in
    let data := store data (index + 3) (Some 255) in
    (bits, data).

Definition render_loop (current changed : CellPool) (acc : Z * list Z)
    : Z * list Z :=
  for_loop (length current) (render_body current changed) acc.

(** The state changes of [render]; what follows the loop only draws the
    image on the canvas. *)
Definition render (state : GameState) : GameState :=
  let state := with_changed (diffBuffers (current state) (previous state)) state in
  let '(bits, data) :=
    render_loop (current state) (changed state) (0, pixels state) in
  with_render bits data state.

(** ** Controls *)

(** [toggle.onclick] *)
Definition toggle (state : GameState) : GameState :=
  with_isRunning (negb (isRunning state)) state.

(** [reset.onclick] *)
Definition reset (state : GameState) : GameState :=
  let state := with_current (createBuffer BUFFER_SIZE false) state in
  with_next (createBuffer BUFFER_SIZE false) state.

(** [random.onclick]; [rnd i] is the outcome of [Math.random() > 0.5] at
    iteration [i]. *)
Definition randomize (rnd : Z -> bool) (state : GameState) : GameState :=
  with_current
    (for_loop (length (current state))
              (fun i cur => assign cur i (rnd i)) (current state))
    state.

(** [draw] of [registerMouseDrawLogic], at the cell column [x] and row
    [y] computed from the pointer offsets, with [event.buttons]. *)
Definition draw (x y buttons : Z) (state : GameState) : GameState :=
  if negb (isMousePressed state) then state
  else
    let isLeftMouseButton := bool_decide (buttons = 1) in
    let isRightMouseButton := bool_decide (buttons = 2) in
    let index := y * CELLS_PER_ROW + x in
    let state :=
      if isLeftMouseButton
      then with_current (assign (current state) index true) state else state in
    let state :=
      if isRightMouseButton
      then with_current (assign (current state) index false) state else state in
    state.

Definition onmousedown (x y buttons : Z) (state : GameState) : GameState :=
  draw x y buttons (with_isMousePressed true state).

Definition onmouseup (x y buttons : Z) (state : GameState) : GameState :=
  draw x y buttons (with_isMousePressed false state).

(** ** The program as a transition system

    The main loop runs [render] and [tick] in turn; the handlers run
    between two iterations.  Pointer events reach the canvas with a
    position inside it, that is a cell of the grid. *)
Inductive event : Type :=
  | Tick
  | Render
  | Toggle
  | Reset
  | Random (rnd : Z -> bool)
  | MouseDown (x y buttons : Z)
  | MouseUp (x y buttons : Z)
  | MouseMove (x y buttons : Z).

Definition handle (e : event) (state : GameState) : GameState :=
  match e with
  | Tick => tick state
  | Render => render state
  | Toggle => toggle state
  | Reset => reset state
  | Random rnd => randomize rnd state
  | MouseDown x y buttons => onmousedown x y buttons state
  | MouseUp x y buttons => onmouseup x y buttons state
  | MouseMove x y buttons => draw x y buttons state
  end.

Definition in_grid (x y : Z) : Prop :=
  0 <= x < CELLS_PER_ROW /\ 0 <= y < CELLS_PER_ROW.

Definition event_ok (e : event) : Prop :=
  match e with
  | MouseDown x y _ | MouseUp x y _ | MouseMove x y _ => in_grid x y
  | _ => True
  end.

Definition run (es : list event) (state : GameState) : GameState :=
  foldl (fun s e => handle e s) state es.

Inductive reachable : GameState -> Prop :=
  | reachable_init : reachable state0
  | reachable_step e s : reachable s -> event_ok e -> reachable (handle e s).

(** * Vocabulary of the statements *)

(** ** Neighbour counts *)

(** The eight positions [findNeighbors] reads, in the order of its array. *)
Definition neighbor_indices (index : Z) : list Z :=
  [index - CELLS_PER_ROW; index + CELLS_PER_ROW; index - 1; index + 1;
   index - CELLS_PER_ROW - 1; index - CELLS_PER_ROW + 1;
   index + CELLS_PER_ROW - 1; index + CELLS_PER_ROW + 1].

(** The summing loop of [findNeighbors], from a running [count]. *)
Definition count_from (cells : CellPool) (count : number) (js : list Z) : number :=
  foldl (fun count neighbor => add count (Number_of (get cells neighbor))) count js.

(** How many of the positions [js] hold a live cell. *)
Definition live (cells : CellPool) (j : Z) : Z :=
  if truthy (get cells j) then 1 else 0.

Definition lives (cells : CellPool) (js : list Z) : Z :=
  foldr (fun j acc => live cells j + acc) 0 js.

(** ** The two branches of the loop of [tick] *)

(** What one pass of the loop leaves in [next[i]]: [alive] and [n] are
    read from [current], [old] is the value [next[i]] held before. *)
Definition tick_rule (alive : option bool) (n : number) (old : option bool)
    : option bool :=
  if truthy alive && (lt n (Num 2) || gt n (Num 3)) then Some false
  else if negb (truthy alive) && strict_eq n (Num 3) then Some true
  else old.

(** The cells of the window [lo .. hi] at which the loop of [tick] writes
    [true]. *)
Definition births (cells : CellPool) (lo hi : Z) : list Z :=
  filter (fun i => negb (truthy (get cells i)) &&
                   strict_eq (findNeighbors cells i) (Num 3) = true)
         (seqZ lo (hi - lo + 1)).

(** ** The bytes of the image *)

(** [data[k]] *)
Definition peek (data : list Z) (k : Z) : option Z :=
  if decide (0 <= k) then data !! Z.to_nat k else None.

(** The byte the loop of [render] stores at offset [k] of the image when
    the cell [k / 4] is marked as changed. *)
Definition pixel_byte (cur : CellPool) (k : Z) : Z :=
  if decide (k mod 4 = 3) then 255
  else toUint8Clamp (color_of (Number_of (get cur (k / 4)))).

(** ** An invariant of the program

    In every state the program can reach, [current] and [next] are arrays
    of [BUFFER_SIZE] booleans without an empty slot, and [next] holds no
    live cell in the rows and cells at which [findNeighbors] reads outside
    the array: the loop of [tick] only writes [true] where the count is 3,
    that is where the eight reads were defined. *)
Definition full (cells : CellPool) : Prop :=
  length cells = Z.to_nat BUFFER_SIZE /\
  forall i, 0 <= i < BUFFER_SIZE -> is_Some (get cells i).

Definition interior (i : Z) : Prop :=
  CELLS_PER_ROW + 1 <= i /\ i + CELLS_PER_ROW + 1 < BUFFER_SIZE.

Definition state_ok (s : GameState) : Prop :=
  full (current s) /\ full (next s) /\
  forall i, get (next s) i = Some true -> interior i.

(** ** Runs of the program *)

(** A block painted on the empty grid: the four cells in the middle of
    the grid, painted with the left button held down; then the simulation
    is started. *)
Definition block_cells : list Z := [4949; 4950; 5049; 5050].

Definition block_state : GameState :=
  run [MouseDown 49 49 1; MouseMove 50 49 1; MouseMove 49 50 1;
       MouseMove 50 50 1; MouseUp 50 50 0; Toggle] state0.

Definition block_buffer : CellPool :=
  assign (assign (assign (assign (createBuffer BUFFER_SIZE false)
    4949 true) 4950 true) 5049 true) 5050 true.

(** A stale [next] buffer: three cells around the middle are painted on
    the empty grid and the simulation is started; one tick later the
    fourth cell of the square has been born, and it is erased with the
    right button. *)
Definition corner_state : GameState :=
  run [MouseDown 49 49 1; MouseMove 50 49 1; MouseMove 49 50 1;
       MouseUp 49 50 0; Toggle] state0.

Definition corner_buffer : CellPool :=
  assign (assign (assign (createBuffer BUFFER_SIZE false)
    4949 true) 4950 true) 5049 true.

Definition stale_state : GameState :=
  run [MouseDown 50 50 2; MouseUp 50 50 0] (handle Tick corner_state).

(** The empty grid with the simulation started. *)
Definition fresh_state : GameState := run [Toggle] state0.

(** A single cell painted in the first corner of the grid, simulation
    started. *)
Definition corner_cell_state : GameState :=
  run [MouseDown 0 0 1; MouseUp 0 0 0; Toggle] state0.

(** ** The loop of [main] and the image *)

(** One iteration of the loop of [main]: [render], then [tick].  What
    follows in the iteration, [reportPerformance] and the time stamp
    [lastLoop], reads the buffers and writes none of them. *)
Definition frame (state : GameState) : GameState := tick (render state).

(** How many of the first [n] slots of a mask are true. *)
Definition count_changed (changed : CellPool) (n : nat) : Z :=
  Z.of_nat (length (filter (fun i => truthy (get changed (Z.of_nat i)) = true)
                           (seq 0 n))).

(** The image shows the cells: the pixel of every cell that holds a
    boolean is opaque, black for a live cell and white for a dead one. *)
Definition depicts (data : list Z) (cells : CellPool) : Prop :=
  forall i alive, get cells i = Some alive ->
    let color := if alive then 0 else 255 in
    peek data (4 * i) = Some color /\
    peek data (4 * i + 1) = Some color /\
    peek data (4 * i + 2) = Some color /\
    peek data (4 * i + 3) = Some 255.

(** The shape of the five buffers in the initial state. *)
Definition shape_ok (s : GameState) : Prop :=
  full (previous s) /\ full (current s) /\ full (next s) /\
  full (changed s) /\
  length (pixels s) = Z.to_nat (4 * BUFFER_SIZE).

(** The events that call [draw] alone: [onmousemove] and [onclick]. *)
Definition is_move (e : event) : Prop :=
  match e with
  | MouseMove _ _ _ => True
  | _ => False
  end.



(** * Properties *)

(** ** Reading and writing arrays *)

Lemma get_negative (cells : CellPool) (i : Z) : i < 0 -> get cells i = None.
Proof. intros Hi. unfold get. case_decide; [lia | done]. Qed.

Lemma get_beyond (cells : CellPool) (i : Z) :
  Z.of_nat (length cells) <= i -> get cells i = None.
Proof.
  intros Hi. unfold get. case_decide; [|done].
  rewrite lookup_ge_None_2; [done | lia].
Qed.

Lemma get_is_Some_range (cells : CellPool) (i : Z) (v : bool) :
  get cells i = Some v -> 0 <= i < Z.of_nat (length cells).
Proof.
  intros Hget.
  destruct (decide (i < 0)) as [Hneg|Hnn].
  { by rewrite get_negative in Hget. }
  destruct (decide (Z.of_nat (length cells) <= i)) as [Hge|Hlt].
  { by rewrite get_beyond in Hget. }
  lia.
Qed.

Lemma length_assign (cells : CellPool) (i : Z) (v : bool) :
  0 <= i ->
  length (assign cells i v) = (length cells `max` S (Z.to_nat i))%nat.
Proof.
  intros Hi. unfold assign. rewrite decide_False by lia. simpl. case_decide.
  - rewrite length_insert. lia.
  - rewrite !length_app, length_replicate. simpl. lia.
Qed.

Lemma length_assign_inside (cells : CellPool) (i : Z) (v : bool) :
  0 <= i < Z.of_nat (length cells) -> length (assign cells i v) = length cells.
Proof. intros Hi. rewrite length_assign; lia. Qed.

Lemma get_assign (cells : CellPool) (i j : Z) (v : bool) :
  0 <= i ->
  get (assign cells i v) j = if decide (i = j) then Some v else get cells j.
Proof.
  intros Hi. unfold get, assign. rewrite (decide_False (P := i < 0)) by lia.
  simpl.
  destruct (decide (0 <= j)) as [Hj|Hj]; [|case_decide; [lia | done]].
  destruct (decide (Z.to_nat i < length cells)%nat) as [Hin|Hout].
  - destruct (decide (i = j)) as [->|Hne].
    + by rewrite list_lookup_insert_eq.
    + rewrite list_lookup_insert_ne; [done | lia].
  - destruct (decide (i = j)) as [->|Hne].
    + rewrite lookup_app_r by lia.
      rewrite lookup_app_r by (rewrite length_replicate; lia).
      rewrite length_replicate.
      by replace (Z.to_nat j - length cells - (Z.to_nat j - length cells))%nat
        with 0%nat by lia.
    + destruct (decide (Z.to_nat j < length cells)%nat) as [Hjin|Hjout].
      * by rewrite lookup_app_l.
      * rewrite (lookup_ge_None_2 cells) by lia.
        rewrite lookup_app_r by lia.
        destruct (decide (Z.to_nat j - length cells < Z.to_nat i - length cells)%nat).
        -- rewrite lookup_app_l by (rewrite length_replicate; lia).
           by rewrite lookup_replicate_2.
        -- rewrite lookup_ge_None_2; [done|].
           rewrite length_app, length_replicate. simpl. lia.
Qed.

Lemma get_assign_eq (cells : CellPool) (i : Z) (v : bool) :
  0 <= i -> get (assign cells i v) i = Some v.
Proof. intros Hi. rewrite get_assign by done. by case_decide. Qed.

Lemma get_assign_ne (cells : CellPool) (i j : Z) (v : bool) :
  0 <= i -> i <> j -> get (assign cells i v) j = get cells j.
Proof. intros Hi Hne. rewrite get_assign by done. by case_decide. Qed.

Lemma get_createBuffer (size i : Z) (v : bool) :
  get (createBuffer size v) i = if decide (0 <= i < size) then Some v else None.
Proof.
  unfold get, createBuffer.
  case_decide; [|case_decide; [lia | done]].
  case_decide.
  - rewrite lookup_replicate_2; [done | lia].
  - rewrite lookup_ge_None_2; [done | rewrite length_replicate; lia].
Qed.

Lemma length_createBuffer (size : Z) (v : bool) :
  length (createBuffer size v) = Z.to_nat size.
Proof. apply length_replicate. Qed.

(** ** Loops *)

Lemma for_loop_0 {S : Type} (body : Z -> S -> S) (s : S) :
  for_loop 0 body s = s.
Proof. done. Qed.

Lemma for_loop_S {S : Type} (n : nat) (body : Z -> S -> S) (s : S) :
  for_loop (Datatypes.S n) body s = body (Z.of_nat n) (for_loop n body s).
Proof. unfold for_loop. by rewrite seq_S, foldl_app. Qed.

(** ** Counting neighbours *)

Lemma findNeighbors_count (cells : CellPool) (index : Z) :
  findNeighbors cells index = count_from cells (Num 0) (neighbor_indices index).
Proof. reflexivity. Qed.

Lemma count_from_NaN (cells : CellPool) (js : list Z) :
  count_from cells NaN js = NaN.
Proof. induction js as [|j js IH]; [done | apply IH]. Qed.

Lemma count_from_undefined (cells : CellPool) (count : number) (js : list Z) :
  Exists (fun j => get cells j = None) js -> count_from cells count js = NaN.
Proof.
  intros Hex. revert count.
  induction Hex as [j js Hj | j js _ IH]; intros count.
  - unfold count_from. simpl. rewrite Hj.
    replace (add count (Number_of None)) with NaN by (by destruct count).
    apply count_from_NaN.
  - apply IH.
Qed.

Lemma count_from_defined (cells : CellPool) (k : Z) (js : list Z) :
  Forall (fun j => is_Some (get cells j)) js ->
  count_from cells (Num k) js = Num (k + lives cells js).
Proof.
  intros Hall. revert k.
  induction Hall as [|j js [v Hj] _ IH]; intros k.
  - simpl. f_equal. lia.
  - unfold count_from in *. simpl. unfold live at 1. rewrite Hj.
    destruct v; simpl; rewrite IH; f_equal; lia.
Qed.

Lemma lives_bounds (cells : CellPool) (js : list Z) :
  0 <= lives cells js <= Z.of_nat (length js).
Proof.
  induction js as [|j js IH]; simpl; [lia|].
  unfold live. destruct (truthy _); lia.
Qed.

Lemma lives_none (cells : CellPool) (js : list Z) :
  Forall (fun j => get cells j <> Some true) js -> lives cells js = 0.
Proof.
  induction 1 as [|j js Hj _ IH]; simpl; [done|].
  rewrite IH. unfold live.
  destruct (get cells j) as [[]|]; simpl; [done | lia | lia].
Qed.

(** A position of the array either holds a value or reads as [undefined]:
    the count is a number exactly when the eight reads are defined. *)
Lemma findNeighbors_cases (cells : CellPool) (index : Z) :
  (Forall (fun j => is_Some (get cells j)) (neighbor_indices index) /\
   findNeighbors cells index = Num (lives cells (neighbor_indices index))) \/
  (Exists (fun j => get cells j = None) (neighbor_indices index) /\
   findNeighbors cells index = NaN).
Proof.
  rewrite findNeighbors_count.
  destruct (decide (Forall (fun j => is_Some (get cells j)) (neighbor_indices index)))
    as [Hall|Hex].
  - left. split; [done|]. by rewrite count_from_defined.
  - right. apply not_Forall_Exists in Hex; [|intros j; apply _].
    assert (Hex' : Exists (fun j => get cells j = None) (neighbor_indices index)).
    { eapply Exists_impl; [exact Hex|]. intros j Hj. simpl in Hj.
      by apply eq_None_not_Some. }
    split; [done|]. by apply count_from_undefined.
Qed.

(** Inside the grid, away from the first and the last row, the eight
    positions are inside the array and the result is a count. *)
Lemma findNeighbors_interior (cells : CellPool) (index : Z) :
  Forall is_Some cells ->
  CELLS_PER_ROW + 1 <= index ->
  index + CELLS_PER_ROW + 1 < Z.of_nat (length cells) ->
  exists k, findNeighbors cells index = Num k /\ 0 <= k <= 8.
Proof.
  intros Hdense Hlo Hhi.
  exists (lives cells (neighbor_indices index)). split.
  - rewrite findNeighbors_count. apply count_from_defined.
    assert (Hin : forall j, 0 <= j < Z.of_nat (length cells) -> is_Some (get cells j)).
    { intros j Hj. unfold get. case_decide; [|lia].
      destruct (lookup_lt_is_Some_2 cells (Z.to_nat j)) as [o Ho]; [lia|].
      rewrite Ho. simpl.
      rewrite Forall_lookup in Hdense. by apply (Hdense _ _ Ho). }
    unfold neighbor_indices, CELLS_PER_ROW in *.
    repeat apply Forall_cons_2; try apply Forall_nil_2; apply Hin; lia.
  - pose proof (lives_bounds cells (neighbor_indices index)) as Hb.
    change (length (neighbor_indices index)) with 8%nat in Hb. lia.
Qed.

(** ** The loop of [tick] *)

Lemma tick_body_get (cur nxt : CellPool) (i j : Z) :
  0 <= i ->
  get (tick_body cur i nxt) j =
    if decide (i = j)
    then tick_rule (get cur i) (findNeighbors cur i) (get nxt i)
    else get nxt j.
Proof.
  intros Hi. unfold tick_body, tick_rule.
  destruct (truthy (get cur i)); simpl.
  - destruct (lt _ _ || gt _ _); simpl; [|by case_decide; subst].
    apply get_assign; done.
  - destruct (strict_eq _ _); simpl; [|by case_decide; subst].
    apply get_assign; done.
Qed.

Lemma tick_prefix_get (cur nxt : CellPool) (k : nat) (j : Z) :
  get (for_loop k (tick_body cur) nxt) j =
    if decide (0 <= j < Z.of_nat k)
    then tick_rule (get cur j) (findNeighbors cur j) (get nxt j)
    else get nxt j.
Proof.
  induction k as [|k IH].
  - rewrite for_loop_0. case_decide; [lia | done].
  - rewrite for_loop_S, tick_body_get by lia.
    destruct (decide (Z.of_nat k = j)) as [<-|Hne].
    + rewrite IH. rewrite decide_False by lia. rewrite decide_True by lia. done.
    + rewrite IH. repeat case_decide; first [done | lia].
Qed.

Lemma tick_loop_get (cur nxt : CellPool) (j : Z) :
  get (tick_loop cur nxt) j =
    if decide (0 <= j < Z.of_nat (length cur))
    then tick_rule (get cur j) (findNeighbors cur j) (get nxt j)
    else get nxt j.
Proof. apply tick_prefix_get. Qed.

Lemma tick_body_length (cur nxt : CellPool) (i : Z) :
  0 <= i < Z.of_nat (length nxt) ->
  length (tick_body cur i nxt) = length nxt.
Proof.
  intros Hi. unfold tick_body.
  destruct (truthy (get cur i) && _); destruct (negb _ && _);
    rewrite ?length_assign_inside; rewrite ?length_assign_inside; done.
Qed.

Lemma tick_loop_length (cur nxt : CellPool) :
  (length cur <= length nxt)%nat -> length (tick_loop cur nxt) = length nxt.
Proof.
  intros Hlen. unfold tick_loop.
  assert (Hk : forall k, (k <= length cur)%nat ->
             length (for_loop k (tick_body cur) nxt) = length nxt).
  { induction k as [|k IH]; intros Hk; [done|].
    rewrite for_loop_S. rewrite tick_body_length; rewrite IH; lia. }
  by apply Hk.
Qed.

(** The loop is used through the lemmas above from here on. *)
Opaque tick_loop.

(** ** [tick] on the state *)

Lemma tick_idle (s : GameState) :
  isRunning s = false -> tick s = with_previous (cloneBuffer (current s)) s.
Proof. intros Hs. unfold tick. simpl. by rewrite Hs. Qed.

Lemma tick_running (s : GameState) :
  isRunning s = true ->
  tick s =
    {| isRunning := true;
       isMousePressed := isMousePressed s;
       bitsChanged := bitsChanged s;
       previous := current s;
       current := tick_loop (current s) (next s);
       next := tick_loop (current s) (next s);
       changed := changed s;
       pixels := pixels s |}.
Proof.
  intros Hs. unfold tick. simpl. rewrite Hs. simpl.
  unfold with_current, with_next, with_previous, cloneBuffer. simpl.
  by rewrite Hs.
Qed.

Lemma tick_running_get (s : GameState) (i : Z) :
  isRunning s = true ->
  0 <= i < Z.of_nat (length (current s)) ->
  get (current (tick s)) i =
    tick_rule (get (current s) i) (findNeighbors (current s) i) (get (next s) i).
Proof.
  intros Hs Hi. rewrite tick_running by done. simpl.
  rewrite tick_loop_get. by rewrite decide_True.
Qed.

(** C1. [findNeighbors] at the first cell of the grid: the position above
    it, [0 - CELLS_PER_ROW], is outside every array, it reads as
    [undefined], and the sum is [NaN], not a count between 0 and 8. *)
Theorem findNeighbors_first_cell_NaN (cells : CellPool) :
  findNeighbors cells 0 = NaN.
Proof.
  destruct (findNeighbors_cases cells 0) as [[Hall _]|[_ HNaN]]; [|done].
  apply Forall_cons_1 in Hall as [[v Hv] _].
  by rewrite get_negative in Hv.
Qed.

(** C2. After the loop of [tick], for every index [i] of [current], with
    [alive = current[i]] and [n = findNeighbors(current, i)]: [next[i]] is
    [false] if [alive && (n < 2 || n > 3)], it is [true] if
    [!alive && n === 3], and otherwise it is the value [next[i]] held
    before the loop. *)
Theorem tick_loop_rule (cur nxt : CellPool) (i : Z) :
  0 <= i < Z.of_nat (length cur) ->
  let alive := truthy (get cur i) in
  let n := findNeighbors cur i in
  (alive = true -> lt n (Num 2) || gt n (Num 3) = true ->
     get (tick_loop cur nxt) i = Some false) /\
  (alive = false -> strict_eq n (Num 3) = true ->
     get (tick_loop cur nxt) i = Some true) /\
  (~ (alive = true /\ lt n (Num 2) || gt n (Num 3) = true) ->
   ~ (alive = false /\ strict_eq n (Num 3) = true) ->
     get (tick_loop cur nxt) i = get nxt i).
Proof.
  intros Hi alive n. rewrite tick_loop_get, decide_True by done.
  unfold tick_rule. fold alive n.
  destruct alive, (lt n (Num 2) || gt n (Num 3)), (strict_eq n (Num 3));
    simpl; repeat split; intros; first [done | tauto | exfalso; tauto].
Qed.

(** ** Cells that cannot be born *)

Lemma no_birth_without_live_neighbor (cells : CellPool) (i : Z) :
  Forall (fun j => get cells j <> Some true) (neighbor_indices i) ->
  strict_eq (findNeighbors cells i) (Num 3) = false.
Proof.
  intros Hdead.
  destruct (findNeighbors_cases cells i) as [[_ ->]|[_ ->]]; [|done].
  by rewrite lives_none.
Qed.

Lemma no_birth_far (cells : CellPool) (lo hi i : Z) :
  (forall j, get cells j = Some true -> lo <= j <= hi) ->
  i < lo - CELLS_PER_ROW - 1 \/ hi + CELLS_PER_ROW + 1 < i ->
  strict_eq (findNeighbors cells i) (Num 3) = false.
Proof.
  intros Hlive Hfar. apply no_birth_without_live_neighbor.
  unfold neighbor_indices, CELLS_PER_ROW in *.
  repeat apply Forall_cons_2; try apply Forall_nil_2;
    intros Hj; apply Hlive in Hj; lia.
Qed.

Lemma births_window (cells : CellPool) (lo hi i : Z) (bs : list Z) :
  births cells lo hi = bs ->
  lo <= i <= hi ->
  negb (truthy (get cells i)) && strict_eq (findNeighbors cells i) (Num 3)
    = bool_decide (i ∈ bs).
Proof.
  intros <- Hi. unfold births.
  destruct (negb _ && _) eqn:Hb; symmetry.
  - apply bool_decide_eq_true_2, list_elem_of_filter. split; [done|].
    apply elem_of_seqZ. lia.
  - apply bool_decide_eq_false_2. rewrite list_elem_of_filter.
    intros [Hb' _]. congruence.
Qed.

Lemma tick_rule_dead_next (alive : option bool) (n : number) :
  tick_rule alive n (Some false) =
    Some (negb (truthy alive) && strict_eq n (Num 3)).
Proof.
  unfold tick_rule.
  destruct (truthy alive); simpl; [by destruct (_ || _)|].
  by destruct (strict_eq _ _).
Qed.

(** ** A block painted on the empty grid *)

Lemma reachable_run (es : list event) (s : GameState) :
  reachable s -> Forall event_ok es -> reachable (run es s).
Proof.
  intros Hs Hes. revert s Hs.
  induction Hes as [|e es He _ IH]; intros s Hs; [done|].
  apply IH. by constructor.
Qed.

Lemma block_state_fields :
  isRunning block_state = true /\
  current block_state = block_buffer /\
  next block_state = createBuffer BUFFER_SIZE false.
Proof. repeat split; vm_compute; reflexivity. Qed.

Lemma block_buffer_get (i : Z) :
  get block_buffer i =
    if decide (0 <= i < BUFFER_SIZE)
    then Some (bool_decide (i ∈ block_cells)) else None.
Proof.
  unfold block_buffer. rewrite !get_assign by lia. rewrite get_createBuffer.
  destruct (decide (5050 = i)) as [<-|H1]; [done|].
  destruct (decide (5049 = i)) as [<-|H2]; [done|].
  destruct (decide (4950 = i)) as [<-|H3]; [done|].
  destruct (decide (4949 = i)) as [<-|H4]; [done|].
  case_decide; [|done].
  rewrite bool_decide_eq_false_2; [done|].
  unfold block_cells. rewrite !elem_of_cons, elem_of_nil. lia.
Qed.

Lemma block_buffer_live (j : Z) :
  get block_buffer j = Some true -> 4949 <= j <= 5050.
Proof.
  rewrite block_buffer_get. case_decide; [|done].
  intros [= Hj%bool_decide_eq_true]. unfold block_cells in Hj.
  rewrite !elem_of_cons, elem_of_nil in Hj. lia.
Qed.

Lemma block_buffer_no_birth (i : Z) :
  negb (truthy (get block_buffer i)) &&
    strict_eq (findNeighbors block_buffer i) (Num 3) = false.
Proof.
  destruct (decide (4848 <= i <= 5151)) as [Hin|Hout].
  - rewrite (births_window _ 4848 5151 i []); [done| |done].
    vm_compute. reflexivity.
  - rewrite (no_birth_far _ 4949 5050); [apply andb_false_r | |].
    + apply block_buffer_live.
    + unfold CELLS_PER_ROW. lia.
Qed.

(** C3. The block is not stable in the program.  The state in which the
    four middle cells have been painted on the empty grid and the
    simulation started is reachable; its [next] buffer still holds the
    empty grid, the loop of [tick] writes nothing at the four cells (they
    are alive with three live neighbours), and the copy of [next] into
    [current] leaves every cell of the grid dead. *)
Theorem painted_block_dies_in_one_tick :
  reachable block_state /\
  isRunning block_state = true /\
  (forall i, 0 <= i < BUFFER_SIZE ->
     get (current block_state) i = Some (bool_decide (i ∈ block_cells))) /\
  (forall i, 0 <= i < BUFFER_SIZE ->
     get (current (tick block_state)) i = Some false).
Proof.
  destruct block_state_fields as (Hrun & Hcur & Hnext).
  split; [|split; [done|split]].
  - apply reachable_run; [apply reachable_init|].
    unfold in_grid, CELLS_PER_ROW.
    repeat apply Forall_cons_2; try apply Forall_nil_2; simpl;
      unfold in_grid, CELLS_PER_ROW; lia.
  - intros i Hi. rewrite Hcur, block_buffer_get. by rewrite decide_True.
  - intros i Hi. rewrite tick_running_get; [|done|].
    + rewrite Hcur, Hnext, get_createBuffer, decide_True by done.
      by rewrite tick_rule_dead_next, block_buffer_no_birth.
    + rewrite Hcur. unfold block_buffer.
      rewrite !length_assign by lia. rewrite length_createBuffer.
      unfold BUFFER_SIZE, CELLS_PER_ROW in *. lia.
Qed.

(** ** A stale [next] buffer *)

Lemma corner_state_fields :
  isRunning corner_state = true /\
  current corner_state = corner_buffer /\
  next corner_state = createBuffer BUFFER_SIZE false.
Proof. repeat split; vm_compute; reflexivity. Qed.

Lemma stale_state_fields :
  isRunning stale_state = true /\
  current stale_state =
    assign (tick_loop corner_buffer (createBuffer BUFFER_SIZE false)) 5050 false /\
  next stale_state = tick_loop corner_buffer (createBuffer BUFFER_SIZE false).
Proof.
  destruct corner_state_fields as (Hrun & Hcur & Hnext).
  unfold stale_state. change (handle Tick corner_state) with (tick corner_state).
  rewrite tick_running by done. rewrite Hcur, Hnext.
  repeat split; reflexivity.
Qed.

Lemma corner_buffer_get (i : Z) :
  get corner_buffer i =
    if decide (0 <= i < BUFFER_SIZE)
    then Some (bool_decide (i ∈ [4949; 4950; 5049])) else None.
Proof.
  unfold corner_buffer. rewrite !get_assign by lia. rewrite get_createBuffer.
  destruct (decide (5049 = i)) as [<-|H2]; [done|].
  destruct (decide (4950 = i)) as [<-|H3]; [done|].
  destruct (decide (4949 = i)) as [<-|H4]; [done|].
  case_decide; [|done].
  rewrite bool_decide_eq_false_2; [done|].
  rewrite !elem_of_cons, elem_of_nil. lia.
Qed.

Lemma corner_buffer_length : length corner_buffer = Z.to_nat BUFFER_SIZE.
Proof.
  unfold corner_buffer. rewrite !length_assign by lia.
  rewrite length_createBuffer.
  unfold BUFFER_SIZE, CELLS_PER_ROW. lia.
Qed.

(** One tick on the three painted cells: the fourth cell of the square is
    born and nothing else is alive. *)
Lemma corner_tick_get (i : Z) :
  get (tick_loop corner_buffer (createBuffer BUFFER_SIZE false)) i =
    if decide (0 <= i < BUFFER_SIZE)
    then Some (bool_decide (i = 5050)) else None.
Proof.
  rewrite tick_loop_get, corner_buffer_length, get_createBuffer.
  rewrite Z2Nat.id by done.
  case_decide as Hi; [|done].
  rewrite tick_rule_dead_next. f_equal.
  destruct (decide (4848 <= i <= 5150)) as [Hin|Hout].
  - rewrite (births_window _ 4848 5150 i [5050]); [| |done].
    + apply bool_decide_ext. rewrite elem_of_cons, elem_of_nil. tauto.
    + vm_compute. reflexivity.
  - rewrite (no_birth_far _ 4949 5049).
    + rewrite andb_false_r. symmetry. apply bool_decide_eq_false_2. lia.
    + intros j. rewrite corner_buffer_get. case_decide; [|done].
      intros [= Hj%bool_decide_eq_true].
      rewrite !elem_of_cons, elem_of_nil in Hj. lia.
    + unfold CELLS_PER_ROW. lia.
Qed.

Lemma stale_current_get (i : Z) :
  get (current stale_state) i = get (createBuffer BUFFER_SIZE false) i.
Proof.
  destruct stale_state_fields as (_ & -> & _).
  rewrite get_assign, corner_tick_get, get_createBuffer by lia.
  case_decide as Hi; [subst; done|].
  case_decide; [|done].
  by rewrite bool_decide_eq_false_2 by lia.
Qed.

(** On a grid without a live cell the loop of [tick] writes nothing, and
    the copy brings back whatever [next] held. *)
Lemma tick_dead_grid_copies_next (s : GameState) (i : Z) :
  isRunning s = true ->
  0 <= i < Z.of_nat (length (current s)) ->
  (forall j, get (current s) j <> Some true) ->
  get (current (tick s)) i = get (next s) i.
Proof.
  intros Hrun Hi Hdead. rewrite tick_running_get by done.
  unfold tick_rule.
  assert (Halive : truthy (get (current s) i) = false).
  { specialize (Hdead i). by destruct (get (current s) i) as [[]|]. }
  rewrite Halive, no_birth_without_live_neighbor; [done|].
  apply Forall_forall. intros j _. apply Hdead.
Qed.

(** C5. The result of [tick] is not a function of [current].  Both states
    below are reachable and running, and their [current] buffers are the
    empty grid, slot for slot.  In the first the [next] buffer is empty as
    well, and the tick leaves cell 5050 dead; in the second [next] still
    holds the cell born one tick earlier and erased since, and the tick,
    which writes nothing at a dead cell without three live neighbours,
    copies it back: cell 5050 is alive. *)
Theorem tick_depends_on_stale_next :
  reachable fresh_state /\ reachable stale_state /\
  isRunning fresh_state = true /\ isRunning stale_state = true /\
  length (current fresh_state) = length (current stale_state) /\
  (forall i, get (current fresh_state) i = get (current stale_state) i) /\
  get (current (tick fresh_state)) 5050 = Some false /\
  get (current (tick stale_state)) 5050 = Some true.
Proof.
  destruct stale_state_fields as (Hrun & Hcur & Hnext).
  assert (Hfresh : current fresh_state = createBuffer BUFFER_SIZE false)
    by reflexivity.
  assert (Hlen : length (current stale_state) = Z.to_nat BUFFER_SIZE).
  { etransitivity; [exact (f_equal length Hcur)|].
    rewrite length_assign_inside, tick_loop_length;
      rewrite ?tick_loop_length;
      rewrite ?corner_buffer_length, ?length_createBuffer;
      unfold BUFFER_SIZE, CELLS_PER_ROW; lia. }
  split; [|split; [|split; [|split; [|split; [|split; [|split]]]]]].
  - apply reachable_run; [apply reachable_init|].
    apply Forall_cons_2; [exact I | apply Forall_nil_2].
  - apply reachable_run.
    + apply (reachable_step Tick); [|exact I].
      apply reachable_run; [apply reachable_init|].
      repeat apply Forall_cons_2; try apply Forall_nil_2; simpl;
        unfold in_grid, CELLS_PER_ROW; lia.
    + repeat apply Forall_cons_2; try apply Forall_nil_2; simpl;
        unfold in_grid, CELLS_PER_ROW; lia.
  - reflexivity.
  - exact Hrun.
  - etransitivity; [|symmetry; exact Hlen]. reflexivity.
  - intros i. symmetry. apply stale_current_get.
  - etransitivity; [apply tick_dead_grid_copies_next|].
    + reflexivity.
    + vm_compute. split; [discriminate | reflexivity].
    + intros j Hj. pose proof (get_createBuffer BUFFER_SIZE j false) as E.
      change (createBuffer BUFFER_SIZE false) with (current fresh_state) in E.
      rewrite Hj in E. by case_decide.
    + vm_compute. reflexivity.
  - etransitivity; [apply tick_dead_grid_copies_next|].
    + exact Hrun.
    + pose proof (f_equal Z.of_nat Hlen) as E. revert E.
      generalize (Z.of_nat (length (current stale_state))). intros n ->.
      vm_compute. split; [discriminate | reflexivity].
    + intros j Hj. pose proof (stale_current_get j) as E.
      rewrite Hj, get_createBuffer in E. by case_decide.
    + etransitivity; [exact (f_equal (fun b => get b 5050) Hnext)|].
      etransitivity; [apply corner_tick_get|]. reflexivity.
Qed.

(** ** The invariant of the reachable states *)

Lemma full_createBuffer (v : bool) : full (createBuffer BUFFER_SIZE v).
Proof.
  split; [apply length_createBuffer|].
  intros i Hi. rewrite get_createBuffer, decide_True by done. by eexists.
Qed.

Lemma full_assign (cells : CellPool) (i : Z) (v : bool) :
  full cells -> 0 <= i < BUFFER_SIZE -> full (assign cells i v).
Proof.
  intros [Hlen Hget] Hi. split.
  - rewrite length_assign_inside; [done | lia].
  - intros j Hj. rewrite get_assign by lia. case_decide; [by eexists | by apply Hget].
Qed.

Lemma full_tick_loop (cur nxt : CellPool) :
  full cur -> full nxt -> full (tick_loop cur nxt).
Proof.
  intros [Hlc _] [Hln Hget]. split.
  - rewrite tick_loop_length; [done | lia].
  - intros j Hj. rewrite tick_loop_get. case_decide; [|by apply Hget].
    unfold tick_rule.
    destruct (_ && _); [by eexists|]. destruct (_ && _); [by eexists|].
    by apply Hget.
Qed.

Lemma randomize_prefix (rnd : Z -> bool) (cells : CellPool) (k : nat) :
  (k <= length cells)%nat ->
  let cells' := for_loop k (fun i cur => assign cur i (rnd i)) cells in
  length cells' = length cells /\
  forall j, get cells' j =
            if decide (0 <= j < Z.of_nat k) then Some (rnd j) else get cells j.
Proof.
  induction k as [|k IH]; intros Hk; simpl.
  - rewrite for_loop_0. split; [done|]. intros j. case_decide; [lia | done].
  - rewrite for_loop_S. destruct IH as [IHlen IHget]; [lia|]. split.
    + rewrite length_assign_inside; [done | lia].
    + intros j. rewrite get_assign by lia.
      destruct (decide (Z.of_nat k = j)) as [<-|Hne].
      * by rewrite decide_True by lia.
      * rewrite IHget. repeat case_decide; first [done | lia].
Qed.

Lemma full_randomize (rnd : Z -> bool) (cells : CellPool) :
  full cells ->
  full (for_loop (length cells) (fun i cur => assign cur i (rnd i)) cells).
Proof.
  intros [Hlen Hget].
  destruct (randomize_prefix rnd cells (length cells)) as [Hl Hg]; [done|].
  split; [congruence|].
  intros j Hj. rewrite Hg. case_decide; [by eexists | by apply Hget].
Qed.

Lemma tick_loop_born_interior (cur nxt : CellPool) (i : Z) :
  length cur = Z.to_nat BUFFER_SIZE ->
  (forall j, get nxt j = Some true -> interior j) ->
  get (tick_loop cur nxt) i = Some true -> interior i.
Proof.
  intros Hlen Hnxt. rewrite tick_loop_get. case_decide; [|apply Hnxt].
  unfold tick_rule.
  destruct (_ && _); [done|].
  destruct (negb _ && strict_eq _ _) eqn:Hborn; [|apply Hnxt].
  intros _. apply andb_prop in Hborn as [_ Hn].
  destruct (findNeighbors_cases cur i) as [[Hall _]|[_ HNaN]];
    [|by rewrite HNaN in Hn].
  unfold neighbor_indices in Hall.
  assert (Hin : forall j, is_Some (get cur j) -> 0 <= j < BUFFER_SIZE).
  { intros j [v Hv]. apply get_is_Some_range in Hv.
    unfold BUFFER_SIZE, CELLS_PER_ROW in *. lia. }
  apply Forall_cons_1 in Hall as [_ Hall]. apply Forall_cons_1 in Hall as [_ Hall].
  apply Forall_cons_1 in Hall as [_ Hall]. apply Forall_cons_1 in Hall as [_ Hall].
  apply Forall_cons_1 in Hall as [Htl Hall]. apply Forall_cons_1 in Hall as [_ Hall].
  apply Forall_cons_1 in Hall as [_ Hall]. apply Forall_cons_1 in Hall as [Hbr _].
  apply Hin in Htl, Hbr. unfold interior. lia.
Qed.

Lemma state0_ok : state_ok state0.
Proof.
  split; [|split]; simpl.
  - apply full_createBuffer.
  - apply full_createBuffer.
  - intros i. rewrite get_createBuffer. by case_decide.
Qed.

Lemma draw_ok (x y buttons : Z) (s : GameState) :
  in_grid x y -> state_ok s -> state_ok (draw x y buttons s).
Proof.
  intros [Hx Hy] (Hcur & Hnext & Hint). unfold draw.
  assert (Hidx : 0 <= y * CELLS_PER_ROW + x < BUFFER_SIZE)
    by (unfold BUFFER_SIZE, CELLS_PER_ROW in *; nia).
  destruct (negb (isMousePressed s)); [done|].
  destruct (bool_decide (buttons = 1)), (bool_decide (buttons = 2));
    (split; [|split]); simpl; try done; repeat apply full_assign; done.
Qed.

Lemma handle_ok (e : event) (s : GameState) :
  event_ok e -> state_ok s -> state_ok (handle e s).
Proof.
  intros He Hs. pose proof Hs as (Hcur & Hnext & Hint).
  destruct e; simpl in *.
  - unfold tick. simpl. destruct (isRunning s); simpl; [|done].
    unfold cloneBuffer. split; [|split]; simpl.
    + by apply full_tick_loop.
    + by apply full_tick_loop.
    + intros i. apply tick_loop_born_interior; [apply Hcur | apply Hint].
  - unfold render. simpl. by destruct (render_loop _ _ _).
  - done.
  - split; [|split]; simpl.
    + apply full_createBuffer.
    + apply full_createBuffer.
    + intros i. rewrite get_createBuffer. by case_decide.
  - split; [|split]; simpl; [by apply full_randomize | done | done].
  - by apply draw_ok.
  - by apply draw_ok.
  - by apply draw_ok.
Qed.

Lemma reachable_ok (s : GameState) : reachable s -> state_ok s.
Proof.
  induction 1 as [|e s _ IH He]; [apply state0_ok | by apply handle_ok].
Qed.

Lemma neighbor_indices_other (i j : Z) : j ∈ neighbor_indices i -> j <> i.
Proof.
  unfold neighbor_indices, CELLS_PER_ROW.
  rewrite !elem_of_cons, elem_of_nil. lia.
Qed.

Lemma interior_neighbors_defined (cells : CellPool) (i : Z) :
  full cells -> interior i ->
  Forall (fun j => is_Some (get cells j)) (neighbor_indices i).
Proof.
  intros [_ Hget] [Hlo Hhi].
  unfold neighbor_indices, BUFFER_SIZE, CELLS_PER_ROW in *.
  repeat apply Forall_cons_2; try apply Forall_nil_2; apply Hget; lia.
Qed.

(** An isolated live cell in a state that satisfies the invariant. *)
Lemma isolated_dies_in_ok_state (s : GameState) (i : Z) :
  state_ok s ->
  isRunning s = true ->
  get (current s) i = Some true ->
  Forall (fun j => get (current s) j <> Some true) (neighbor_indices i) ->
  get (current (tick s)) i = Some false.
Proof.
  intros (Hcur & Hnext & Hint) Hrun Hlive Hdead.
  pose proof (get_is_Some_range _ _ _ Hlive) as Hi.
  rewrite tick_running_get by done. rewrite Hlive. unfold tick_rule. simpl.
  destruct (findNeighbors_cases (current s) i) as [[_ ->]|[Hundef ->]].
  - by rewrite lives_none.
  - simpl.
    destruct Hnext as [Hlen Hget]. destruct Hcur as [Hlc Hgc].
    destruct (Hget i) as [[] Hv]; [lia | | done].
    exfalso. apply Hint in Hv.
    pose proof (interior_neighbors_defined (current s) i (conj Hlc Hgc) Hv) as Hall.
    apply Exists_exists in Hundef as (j & Hj & Hnone).
    rewrite Forall_forall in Hall. destruct (Hall j Hj) as [v Hv']. congruence.
Qed.

(** In a state the program can reach, with the simulation running, a
    live cell none of whose eight neighbour positions holds a live cell is
    dead after one tick, wherever it is in the grid.  Inside the grid the
    count is 0 and the loop writes [false]; in the first and last rows the
    count is [NaN], the loop writes nothing, and the cell takes the value
    of [next], which holds no live cell there. *)
Theorem isolated_cell_dies (s : GameState) (i : Z) :
  reachable s ->
  isRunning s = true ->
  get (current s) i = Some true ->
  Forall (fun j => get (current s) j <> Some true) (neighbor_indices i) ->
  get (current (tick s)) i = Some false.
Proof.
  intros Hreach. apply isolated_dies_in_ok_state. by apply reachable_ok.
Qed.

Lemma isolated_cell_dies_witness :
  reachable corner_cell_state /\
  isRunning corner_cell_state = true /\
  get (current corner_cell_state) 0 = Some true /\
  get (current (tick corner_cell_state)) 0 = Some false.
Proof.
  assert (Hreach : reachable corner_cell_state).
  { apply reachable_run; [apply reachable_init|].
    repeat apply Forall_cons_2; try apply Forall_nil_2; simpl;
      unfold in_grid, CELLS_PER_ROW; lia. }
  split; [exact Hreach|]. split; [reflexivity|]. split; [reflexivity|].
  apply (isolated_cell_dies corner_cell_state 0 Hreach).
  - reflexivity.
  - reflexivity.
  - repeat apply Forall_cons_2; try apply Forall_nil_2; vm_compute; discriminate.
Defined.

(** ** The idle tick *)

(** C6. With the run flag off, [tick] only takes the snapshot
    [previous := current.slice()] and returns: the loop is not run, and
    after any number of such ticks [current] and [next] are the buffers
    they were. *)
Theorem idle_ticks_freeze (s : GameState) (n : nat) :
  isRunning s = false ->
  tick s = with_previous (cloneBuffer (current s)) s /\
  previous (tick s) = current s /\
  isRunning (Nat.iter n tick s) = false /\
  current (Nat.iter n tick s) = current s /\
  next (Nat.iter n tick s) = next s.
Proof.
  intros Hidle. split; [by apply tick_idle|]. split; [by rewrite tick_idle|].
  induction n as [|n (IHrun & IHcur & IHnext)]; [done|].
  simpl. rewrite tick_idle by done. simpl. by rewrite <- IHcur, <- IHnext.
Qed.

Lemma idle_ticks_freeze_witness :
  isRunning state0 = false /\
  current (Nat.iter 3 tick state0) = current state0 /\
  next (Nat.iter 3 tick state0) = next state0.
Proof.
  split; [reflexivity|].
  destruct (idle_ticks_freeze state0 3) as (_ & _ & _ & Hcur & Hnext);
    [reflexivity|].
  split; [exact Hcur | exact Hnext].
Defined.

(** ** diffBuffers *)

Lemma diffBuffers_length (a b : CellPool) :
  length (diffBuffers a b) = length a.
Proof. apply length_imap. Qed.

(** On two arrays of booleans of one length, the mask as a whole. *)
Lemma diffBuffers_dense (a b : list bool) :
  length a = length b ->
  diffBuffers (Some <$> a) (Some <$> b) =
    Some <$> zip_with (fun x y => negb (eqb x y)) a b.
Proof.
  intros Hlen. apply list_eq. intros i. unfold diffBuffers.
  rewrite list_lookup_imap, !list_lookup_fmap, lookup_zip_with.
  destruct (a !! i) as [x|] eqn:Ha; simpl; [|done].
  destruct (lookup_lt_is_Some_2 b i) as [y Hb].
  { rewrite <- Hlen. by eapply lookup_lt_Some. }
  unfold get. rewrite decide_True by lia.
  rewrite Nat2Z.id, list_lookup_fmap, Hb. simpl. by destruct x, y.
Qed.

(** C7. [diffBuffers(a, b)] has the length of [a], and at every index
    where both arrays hold a boolean its slot is [a[i] !== b[i]]. *)
Theorem diffBuffers_spec (a b : CellPool) (i : Z) (x y : bool) :
  get a i = Some x ->
  get b i = Some y ->
  length (diffBuffers a b) = length a /\
  get (diffBuffers a b) i = Some (negb (eqb x y)).
Proof.
  intros Ha Hb. split; [apply diffBuffers_length|].
  unfold diffBuffers. unfold get in *.
  destruct (decide (0 <= i)) as [Hi|]; [|done].
  rewrite list_lookup_imap.
  destruct (a !! Z.to_nat i) as [[c|]|]; simplify_eq/=.
  rewrite Z2Nat.id by done. rewrite decide_True by done.
  destruct (b !! Z.to_nat i) as [[d|]|]; simplify_eq/=.
  by destruct x, y.
Qed.

Lemma diffBuffers_spec_witness :
  get (diffBuffers [Some true; Some false] [Some false; Some false]) 0
    = Some true.
Proof.
  apply (diffBuffers_spec [Some true; Some false] [Some false; Some false]
           0 true false); reflexivity.
Defined.

(** ** randomize *)

(** C8. The handler of the random button writes [state.current] and
    nothing else: [next], [previous], [changed], the pixels and the flags
    are the ones of the state before. *)
Theorem randomize_writes_current_only (rnd : Z -> bool) (s : GameState) :
  next (randomize rnd s) = next s /\
  previous (randomize rnd s) = previous s /\
  changed (randomize rnd s) = changed s /\
  pixels (randomize rnd s) = pixels s /\
  isRunning (randomize rnd s) = isRunning s.
Proof. by repeat split. Qed.

(** What it writes: every slot of [current], with the outcomes drawn. *)
Lemma randomize_current (rnd : Z -> bool) (s : GameState) (j : Z) :
  0 <= j < Z.of_nat (length (current s)) ->
  get (current (randomize rnd s)) j = Some (rnd j).
Proof.
  intros Hj. unfold randomize. simpl.
  destruct (randomize_prefix rnd (current s) (length (current s))) as [_ Hg];
    [done|].
  rewrite Hg. by rewrite decide_True.
Qed.

(** ** The committed generation *)

(** C10. After a tick with the run flag on, [current] is the array [next]
    slot for slot, and a cell at which neither branch of the loop fired
    holds the value [next] had for it before the tick. *)
Theorem running_tick_commits_next (s : GameState) :
  isRunning s = true ->
  current (tick s) = next (tick s) /\
  forall i, 0 <= i < Z.of_nat (length (current s)) ->
    truthy (get (current s) i) &&
      (lt (findNeighbors (current s) i) (Num 2) ||
       gt (findNeighbors (current s) i) (Num 3)) = false ->
    negb (truthy (get (current s) i)) &&
      strict_eq (findNeighbors (current s) i) (Num 3) = false ->
    get (current (tick s)) i = get (next s) i.
Proof.
  intros Hrun. split; [by rewrite tick_running|].
  intros i Hi Hdeath Hbirth. rewrite tick_running_get by done.
  unfold tick_rule. by rewrite Hdeath, Hbirth.
Qed.

Lemma tick_loop_rule_witness :
  get (tick_loop block_buffer (createBuffer BUFFER_SIZE false)) 4949 =
  get (createBuffer BUFFER_SIZE false) 4949.
Proof.
  assert (Hi : 0 <= 4949 < Z.of_nat (length block_buffer))
    by (vm_compute; split; [discriminate | reflexivity]).
  destruct (tick_loop_rule block_buffer (createBuffer BUFFER_SIZE false) 4949 Hi)
    as (_ & _ & Hkeep).
  apply Hkeep.
  - vm_compute. intros [_ Hn]. discriminate Hn.
  - vm_compute. intros [Ha _]. discriminate Ha.
Defined.

Lemma running_tick_commits_next_witness :
  isRunning block_state = true /\
  current (tick block_state) = next (tick block_state).
Proof.
  split; [reflexivity|].
  exact (proj1 (running_tick_commits_next block_state eq_refl)).
Defined.

(** ** render *)

Lemma peek_store (data : list Z) (index k : Z) (v : option Z) :
  peek (store data index v) k =
    if decide (index = k) then (fun _ => toUint8Clamp v) <$> peek data k
    else peek data k.
Proof.
  unfold peek, store.
  destruct (decide (0 <= index)) as [Hi|Hi].
  - destruct (decide (0 <= k)) as [Hk|Hk]; [|by case_decide].
    rewrite list_lookup_insert.
    destruct (decide (index = k)) as [->|Hne].
    + case_decide as Hin.
      * destruct Hin as [_ Hin]. apply lookup_lt_is_Some_2 in Hin as [x ->]. done.
      * rewrite lookup_ge_None_2; [done|]. lia.
    + rewrite decide_False; [done|]. lia.
  - destruct (decide (index = k)) as [->|]; [|done].
    by rewrite decide_False.
Qed.

Lemma length_store (data : list Z) (index : Z) (v : option Z) :
  length (store data index v) = length data.
Proof. unfold store. case_decide; [apply length_insert | done]. Qed.

Lemma pixel_index (i : Z) :
  0 <= i ->
  (i / CELLS_PER_ROW * CELLS_PER_ROW + Z.rem i CELLS_PER_ROW) * 4 = 4 * i.
Proof.
  intros Hi. rewrite Z.rem_mod_nonneg by (unfold CELLS_PER_ROW; lia).
  pose proof (Z.div_mod i CELLS_PER_ROW) as Hdm.
  unfold CELLS_PER_ROW in *. lia.
Qed.

Lemma render_body_peek (cur chg : CellPool) (i bits k : Z) (data : list Z) :
  0 <= i ->
  peek (render_body cur chg i (bits, data)).2 k =
    if decide (k / 4 = i /\ truthy (get chg i) = true)
    then (fun _ => pixel_byte cur k) <$> peek data k
    else peek data k.
Proof.
  intros Hi. unfold render_body.
  destruct (truthy (get chg i)); simpl;
    [|rewrite decide_False; [done | intros [_ [=]]]].
  rewrite pixel_index by done. rewrite !peek_store.
  unfold pixel_byte, toUint8Clamp at 4.
  pose proof (Z.div_mod k 4 ltac:(lia)) as Hdm.
  pose proof (Z.mod_pos_bound k 4 ltac:(lia)) as Hmod.
  destruct (peek data k) as [old|]; simpl;
    repeat case_decide; destruct_and?; simpl; try done; try (exfalso; lia);
    try (match goal with
         | H : ~ (_ /\ _) |- _ => exfalso; apply H; split; [lia | done]
         end);
    f_equal; try lia; try (do 4 f_equal; lia).
Qed.

Lemma render_body_length (cur chg : CellPool) (i bits : Z) (data : list Z) :
  length (render_body cur chg i (bits, data)).2 = length data.
Proof.
  unfold render_body. destruct (negb _); [done|]. simpl.
  by rewrite !length_store.
Qed.

Lemma render_prefix (cur chg : CellPool) (n : nat) (bits : Z) (data : list Z) :
  let data' := (for_loop n (render_body cur chg) (bits, data)).2 in
  length data' = length data /\
  forall k, peek data' k =
    if decide (0 <= k / 4 < Z.of_nat n /\ truthy (get chg (k / 4)) = true)
    then (fun _ => pixel_byte cur k) <$> peek data k
    else peek data k.
Proof.
  cbv zeta. induction n as [|n [IHlen IHpeek]].
  - rewrite for_loop_0. split; [done|]. intros k. rewrite decide_False; [done | lia].
  - rewrite for_loop_S.
    destruct (for_loop n (render_body cur chg) (bits, data)) as [b d].
    simpl in IHlen, IHpeek. split.
    + by rewrite render_body_length.
    + intros k. rewrite render_body_peek by lia. rewrite IHpeek.
      destruct (decide (k / 4 = Z.of_nat n)) as [Hk|Hk].
      * rewrite Hk. rewrite (decide_False (P := _ <= _ < _ /\ _)) by lia.
        destruct (truthy (get chg (Z.of_nat n))).
        -- rewrite !decide_True; [done | split; [lia | done] | done].
        -- rewrite !decide_False; [done | intros [_ [=]] | intros [_ [=]]].
      * rewrite (decide_False (P := _ = _ /\ _)) by (intros [? _]; done).
        destruct (truthy (get chg (k / 4))).
        -- destruct (decide (0 <= k / 4 < Z.of_nat n)).
           ++ rewrite !decide_True; [done | split; [lia | done] | done].
           ++ rewrite !decide_False; [done | lia | lia].
        -- rewrite !decide_False; [done | intros [_ [=]] | intros [_ [=]]].
Qed.

Lemma cell_of_byte (i k : Z) :
  4 * i <= k < 4 * i + 4 -> k / 4 = i /\ k mod 4 = k - 4 * i.
Proof.
  intros Hk.
  pose proof (Z.div_mod k 4 ltac:(lia)) as Hdm.
  pose proof (Z.mod_pos_bound k 4 ltac:(lia)) as Hmod.
  lia.
Qed.

Lemma pixel_byte_at (cur : CellPool) (i k : Z) (alive : bool) :
  4 * i <= k < 4 * i + 4 ->
  get cur i = Some alive ->
  pixel_byte cur k =
    if decide (k = 4 * i + 3) then 255 else if alive then 0 else 255.
Proof.
  intros Hk Halive. destruct (cell_of_byte i k Hk) as [Hdiv Hmod].
  unfold pixel_byte. rewrite Hdiv, Hmod, Halive.
  repeat case_decide; try lia; by destruct alive.
Qed.

(** C9. The loop of [render] on [current], a mask and the bytes of the
    image: for a cell [i] of the grid whose four bytes are in the image,
    if [mask[i]] is true the bytes at [4 * i .. 4 * i + 2] are 255 for a
    dead cell and 0 for a live one and the byte at [4 * i + 3] is 255;
    if [mask[i]] is not true the four bytes are the ones the image held. *)
Theorem render_loop_pixels (cur chg : CellPool) (bits : Z) (data : list Z)
    (i : Z) :
  0 <= i < Z.of_nat (length cur) ->
  4 * i + 3 < Z.of_nat (length data) ->
  let data' := (render_loop cur chg (bits, data)).2 in
  length data' = length data /\
  (truthy (get chg i) = true ->
   forall alive, get cur i = Some alive ->
     let color := if alive then 0 else 255 in
     peek data' (4 * i) = Some color /\
     peek data' (4 * i + 1) = Some color /\
     peek data' (4 * i + 2) = Some color /\
     peek data' (4 * i + 3) = Some 255) /\
  (truthy (get chg i) = false ->
   forall k, 4 * i <= k < 4 * i + 4 -> peek data' k = peek data k).
Proof.
  intros Hi Hdata data'.
  destruct (render_prefix cur chg (length cur) bits data) as [Hlen Hpeek].
  fold (render_loop cur chg (bits, data)) in Hlen, Hpeek. fold data' in Hlen, Hpeek.
  split; [done|]. split.
  - intros Hmask alive Halive color.
    assert (Hbyte : forall k, 4 * i <= k < 4 * i + 4 ->
              peek data' k =
                Some (if decide (k = 4 * i + 3) then 255 else color)).
    { intros k Hk. destruct (cell_of_byte i k Hk) as [Hdiv _].
      assert (Hold : is_Some (peek data k)).
      { unfold peek. rewrite decide_True by lia.
        apply lookup_lt_is_Some_2. lia. }
      destruct Hold as [old Hold].
      rewrite Hpeek, Hold, Hdiv. rewrite decide_True by (split; [lia | done]).
      simpl. f_equal. by apply pixel_byte_at. }
    rewrite !Hbyte by lia.
    rewrite !decide_False by lia. by rewrite decide_True.
  - intros Hmask k Hk. destruct (cell_of_byte i k Hk) as [Hdiv _].
    rewrite Hpeek, Hdiv. rewrite decide_False; [done|].
    intros [_ Ht]. congruence.
Qed.

Lemma render_loop_pixels_witness :
  let cur := [Some true; Some false] in
  let chg := [Some true; Some false] in
  let data' := (render_loop cur chg (0, replicate 8 7)).2 in
  peek data' 0 = Some 0 /\ peek data' 3 = Some 255 /\ peek data' 4 = Some 7.
Proof.
  intros cur chg data'.
  assert (H0 : 0 <= 0 < Z.of_nat (length cur)) by (vm_compute; split; [discriminate | reflexivity]).
  assert (H1 : 0 <= 1 < Z.of_nat (length cur)) by (vm_compute; split; [discriminate | reflexivity]).
  destruct (render_loop_pixels cur chg 0 (replicate 8 7) 0 H0) as (_ & Hset & _);
    [vm_compute; reflexivity|].
  destruct (render_loop_pixels cur chg 0 (replicate 8 7) 1 H1) as (_ & _ & Hkeep);
    [vm_compute; reflexivity|].
  destruct (Hset eq_refl true eq_refl) as (Hr & _ & _ & Ha).
  split; [exact Hr|]. split; [exact Ha|].
  apply (Hkeep eq_refl 4). vm_compute. split; [discriminate | reflexivity].
Defined.

(** ** Supporting facts on the two defects *)

(** In an array of [BUFFER_SIZE] cells, [findNeighbors] is [NaN] at every
    index up to [CELLS_PER_ROW] and from [BUFFER_SIZE - CELLS_PER_ROW - 1]
    on. *)
Lemma findNeighbors_edge_NaN (cells : CellPool) (index : Z) :
  length cells = Z.to_nat BUFFER_SIZE ->
  index <= CELLS_PER_ROW \/ BUFFER_SIZE - CELLS_PER_ROW - 1 <= index ->
  findNeighbors cells index = NaN.
Proof.
  intros Hlen Hedge. rewrite findNeighbors_count. apply count_from_undefined.
  unfold neighbor_indices. destruct Hedge as [Hfirst|Hlast].
  - do 4 apply Exists_cons_tl. apply Exists_cons_hd.
    apply get_negative. unfold CELLS_PER_ROW in *. lia.
  - do 7 apply Exists_cons_tl. apply Exists_cons_hd.
    apply get_beyond. unfold BUFFER_SIZE, CELLS_PER_ROW in *. lia.
Qed.

(** With [next] equal to [current], as it is after a tick that nothing
    has disturbed, the block is a still life. *)
Lemma block_stable_when_synced (i : Z) :
  get (tick_loop block_buffer block_buffer) i = get block_buffer i.
Proof.
  rewrite tick_loop_get. case_decide as Hi; [|done].
  unfold tick_rule. rewrite block_buffer_no_birth.
  destruct (decide (i ∈ block_cells)) as [Hin|Hout].
  - unfold block_cells in Hin. rewrite !elem_of_cons, elem_of_nil in Hin.
    destruct Hin as [->|[->|[->|[->|[]]]]]; vm_compute; reflexivity.
  - rewrite block_buffer_get. case_decide; [|done].
    by rewrite bool_decide_eq_false_2.
Qed.

(** Every cell of the grid, painted alone on the empty grid of the
    initial state, is dead after the first tick: a run of the program
    for each position, the first and last rows and columns included. *)
Lemma painted_cell_dies (x y : Z) :
  in_grid x y ->
  let s := run [MouseDown x y 1; MouseUp x y 0; Toggle] state0 in
  reachable s /\
  get (current s) (y * CELLS_PER_ROW + x) = Some true /\
  (forall j, j <> y * CELLS_PER_ROW + x -> get (current s) j <> Some true) /\
  get (current (tick s)) (y * CELLS_PER_ROW + x) = Some false.
Proof.
  intros Hxy s.
  assert (Hidx : 0 <= y * CELLS_PER_ROW + x)
    by (destruct Hxy; unfold CELLS_PER_ROW in *; nia).
  assert (Hreach : reachable s).
  { apply reachable_run; [apply reachable_init|].
    repeat apply Forall_cons_2; try apply Forall_nil_2; simpl; done. }
  assert (Hcur : current s =
                 assign (createBuffer BUFFER_SIZE false) (y * CELLS_PER_ROW + x) true)
    by reflexivity.
  assert (Hother : forall j, j <> y * CELLS_PER_ROW + x ->
                             get (current s) j <> Some true).
  { intros j Hj. rewrite Hcur, get_assign_ne, get_createBuffer by done.
    by case_decide. }
  split; [done|]. split; [by rewrite Hcur, get_assign_eq|]. split; [done|].
  apply isolated_dies_in_ok_state.
  - by apply reachable_ok.
  - reflexivity.
  - by rewrite Hcur, get_assign_eq.
  - apply Forall_forall. intros j Hj%neighbor_indices_other. by apply Hother.
Qed.

(** * Further properties of the code *)

(** ** Arrays as lists *)

Lemma get_lookup (cells : CellPool) (i : nat) :
  get cells (Z.of_nat i) = mjoin (cells !! i).
Proof. unfold get. rewrite decide_True by lia. by rewrite Nat2Z.id. Qed.

Lemma full_lookup (cells : CellPool) (i : nat) :
  full cells -> (i < length cells)%nat ->
  cells !! i = Some (get cells (Z.of_nat i)).
Proof.
  intros [Hlen Hget] Hi.
  destruct (Hget (Z.of_nat i)) as [v Hv]; [lia|].
  rewrite Hv. rewrite get_lookup in Hv.
  by destruct (cells !! i) as [[w|]|] eqn:E; simplify_eq/=.
Qed.

(** Two arrays of [BUFFER_SIZE] booleans with the same reads are the
    same array. *)
Lemma full_ext (a b : CellPool) :
  full a -> full b -> (forall i, get a i = get b i) -> a = b.
Proof.
  intros Ha Hb Hget. apply list_eq. intros i.
  destruct (decide (i < length a)%nat) as [Hi|Hi].
  - rewrite (full_lookup a i Ha Hi).
    rewrite (full_lookup b i Hb); [by rewrite Hget|].
    destruct Ha as [Ha _], Hb as [Hb _]. lia.
  - destruct Ha as [Ha _], Hb as [Hb _].
    rewrite (lookup_ge_None_2 a) by lia. rewrite (lookup_ge_None_2 b) by lia.
    done.
Qed.

(** ** findNeighbors *)

(** X1. In an array of [BUFFER_SIZE] booleans, [findNeighbors] is [NaN]
    exactly at the indices that are not inside the grid with a full row
    and one more cell on each side. *)
Theorem findNeighbors_NaN_iff_edge (cells : CellPool) (index : Z) :
  full cells ->
  findNeighbors cells index = NaN <-> ~ interior index.
Proof.
  intros Hfull. split.
  - intros HNaN Hint.
    destruct (findNeighbors_interior cells index) as (k & Hk & _).
    + destruct Hfull as [Hlen Hget]. apply Forall_lookup. intros i o Ho.
      pose proof (lookup_lt_Some _ _ _ Ho) as Hi.
      rewrite (full_lookup cells i) in Ho by done. simplify_eq.
      apply Hget. lia.
    + apply Hint.
    + destruct Hfull as [-> _], Hint as [_ Hhi]. lia.
    + congruence.
  - intros Hedge. apply findNeighbors_edge_NaN; [apply Hfull|].
    unfold interior in Hedge. lia.
Qed.

Lemma findNeighbors_NaN_iff_edge_witness :
  findNeighbors (createBuffer BUFFER_SIZE false) 9899 = NaN <-> ~ interior 9899.
Proof.
  apply (findNeighbors_NaN_iff_edge (createBuffer BUFFER_SIZE false) 9899).
  apply full_createBuffer.
Defined.

(** X2. Inside the grid of an array of [BUFFER_SIZE] booleans, the result
    is the number of live cells among the eight positions read, a number
    from 0 to 8. *)
Theorem findNeighbors_counts_live (cells : CellPool) (index : Z) :
  full cells -> interior index ->
  findNeighbors cells index = Num (lives cells (neighbor_indices index)) /\
  0 <= lives cells (neighbor_indices index) <= 8.
Proof.
  intros Hfull Hint. split.
  - rewrite findNeighbors_count. apply count_from_defined.
    by apply interior_neighbors_defined.
  - pose proof (lives_bounds cells (neighbor_indices index)) as Hb.
    change (length (neighbor_indices index)) with 8%nat in Hb. lia.
Qed.

Lemma findNeighbors_counts_live_witness :
  findNeighbors block_buffer 4949 = Num (lives block_buffer (neighbor_indices 4949)).
Proof.
  apply (findNeighbors_counts_live block_buffer 4949).
  - unfold block_buffer.
    repeat (apply full_assign;
            [|vm_compute; split; [discriminate | reflexivity]]).
    apply full_createBuffer.
  - vm_compute. split; [discriminate | reflexivity].
Defined.

(** X3. The grid is not bounded at its sides: for the last cell of a row,
    the position [index + 1] is the first cell of the row below, and a
    live cell there counts as a neighbour. *)
Theorem findNeighbors_row_wrap (y : Z) :
  1 <= y < CELLS_PER_ROW - 2 ->
  findNeighbors
    (assign (createBuffer BUFFER_SIZE false) ((y + 1) * CELLS_PER_ROW) true)
    (y * CELLS_PER_ROW + (CELLS_PER_ROW - 1)) = Num 1.
Proof.
  intros Hy.
  set (k := (y + 1) * CELLS_PER_ROW).
  set (cells := assign (createBuffer BUFFER_SIZE false) k true).
  assert (Hk : 0 <= k < BUFFER_SIZE)
    by (unfold k, BUFFER_SIZE, CELLS_PER_ROW in *; lia).
  assert (Hget : forall j, 0 <= j < BUFFER_SIZE ->
                   get cells j = Some (bool_decide (k = j))).
  { intros j Hj. unfold cells. rewrite get_assign, get_createBuffer by lia.
    rewrite (decide_True (P := 0 <= j < BUFFER_SIZE)) by done.
    case_decide; [by rewrite bool_decide_eq_true_2
                 | by rewrite bool_decide_eq_false_2]. }
  rewrite findNeighbors_count, count_from_defined.
  - unfold neighbor_indices, lives, live. simpl.
    rewrite !Hget by (unfold BUFFER_SIZE, CELLS_PER_ROW in *; lia).
    unfold k, CELLS_PER_ROW.
    repeat first [ rewrite bool_decide_eq_true_2 by lia
                 | rewrite bool_decide_eq_false_2 by lia ].
    reflexivity.
  - apply interior_neighbors_defined.
    + apply full_assign; [apply full_createBuffer | done].
    + unfold interior, BUFFER_SIZE, CELLS_PER_ROW in *. lia.
Qed.

Lemma findNeighbors_row_wrap_witness :
  findNeighbors (assign (createBuffer BUFFER_SIZE false) ((1 + 1) * CELLS_PER_ROW) true)
    (1 * CELLS_PER_ROW + (CELLS_PER_ROW - 1)) = Num 1.
Proof.
  apply (findNeighbors_row_wrap 1). vm_compute. split; [discriminate | reflexivity].
Defined.

(** ** tick *)

(** Conway's rule on a cell and its count. *)
Lemma tick_rule_synced (alive : bool) (n : Z) :
  tick_rule (Some alive) (Num n) (Some alive) =
    Some (if alive then bool_decide (n = 2 \/ n = 3) else bool_decide (n = 3)).
Proof.
  unfold tick_rule. destruct alive; simpl.
  - destruct (decide (n = 2 \/ n = 3)) as [Hn|Hn].
    + rewrite (bool_decide_eq_true_2 _ Hn).
      rewrite (bool_decide_eq_false_2 (n < 2)) by lia.
      by rewrite (bool_decide_eq_false_2 (n > 3)) by lia.
    + rewrite (bool_decide_eq_false_2 _ Hn).
      destruct (decide (n < 2)) as [Hlt|Hlt].
      * by rewrite (bool_decide_eq_true_2 _ Hlt).
      * rewrite (bool_decide_eq_false_2 _ Hlt).
        by rewrite (bool_decide_eq_true_2 (n > 3)) by lia.
  - by destruct (bool_decide (n = 3)).
Qed.

Lemma synced_tick_get (s : GameState) (i : Z) (alive : bool) (n : Z) :
  isRunning s = true ->
  next s = current s ->
  get (current s) i = Some alive ->
  findNeighbors (current s) i = Num n ->
  get (current (tick s)) i =
    Some (if alive then bool_decide (n = 2 \/ n = 3) else bool_decide (n = 3)).
Proof.
  intros Hrun Hsync Halive Hn.
  pose proof (get_is_Some_range _ _ _ Halive) as Hi.
  rewrite tick_running_get by done.
  rewrite Hsync, Halive, Hn. apply tick_rule_synced.
Qed.

(** X4. When [next] equals [current] at the start of a running tick, the
    tick applies Conway's rule at every cell whose count is a number: a
    live cell stays alive with 2 or 3 live neighbours, a dead cell is born
    with exactly 3, and every other cell is dead. *)
Theorem synced_tick_is_conway (s : GameState) (i : Z) (alive : bool) (n : Z) :
  isRunning s = true ->
  next s = current s ->
  get (current s) i = Some alive ->
  findNeighbors (current s) i = Num n ->
  get (current (tick s)) i =
    Some (if alive then bool_decide (n = 2 \/ n = 3) else bool_decide (n = 3)).
Proof. apply synced_tick_get. Qed.

Lemma synced_tick_is_conway_witness :
  get (current (tick fresh_state)) 5050 = Some false.
Proof.
  apply (synced_tick_is_conway fresh_state 5050 false 0);
    first [reflexivity | vm_compute; reflexivity].
Defined.

(** X5. From the second of two consecutive running ticks on, the rule of
    the game is applied to the generation the first tick committed: the
    first tick leaves [next] equal to [current]. *)
Theorem consecutive_tick_is_conway (s : GameState) (i : Z) (alive : bool)
    (n : Z) :
  isRunning s = true ->
  get (current (tick s)) i = Some alive ->
  findNeighbors (current (tick s)) i = Num n ->
  get (current (tick (tick s))) i =
    Some (if alive then bool_decide (n = 2 \/ n = 3) else bool_decide (n = 3)).
Proof.
  intros Hrun. apply synced_tick_get; by rewrite tick_running.
Qed.

(** A tick on the empty grid with an empty [next]. *)
Lemma empty_tick (s : GameState) :
  isRunning s = true ->
  current s = createBuffer BUFFER_SIZE false ->
  next s = createBuffer BUFFER_SIZE false ->
  current (tick s) = createBuffer BUFFER_SIZE false.
Proof.
  intros Hrun Hcur Hnext. rewrite tick_running by done. simpl.
  rewrite Hcur, Hnext.
  apply full_ext.
  - apply full_tick_loop; apply full_createBuffer.
  - apply full_createBuffer.
  - intros i. rewrite tick_loop_get, length_createBuffer.
    case_decide as Hi; [|done].
    rewrite (get_createBuffer BUFFER_SIZE i), decide_True by lia.
    rewrite tick_rule_dead_next, no_birth_without_live_neighbor; [done|].
    apply Forall_forall. intros j _. rewrite get_createBuffer. by case_decide.
Qed.

Lemma consecutive_tick_is_conway_witness :
  get (current (tick (tick fresh_state))) 5050 = Some false.
Proof.
  pose proof (empty_tick fresh_state eq_refl eq_refl eq_refl) as E.
  apply (consecutive_tick_is_conway fresh_state 5050 false 0).
  - reflexivity.
  - exact (eq_ind_r (x := createBuffer BUFFER_SIZE false)
             (fun b => get b 5050 = Some false) eq_refl E).
  - exact (eq_ind_r (x := createBuffer BUFFER_SIZE false)
             (fun b => findNeighbors b 5050 = Num 0) eq_refl E).
Defined.

Lemma tick_rule_NaN (alive old : option bool) : tick_rule alive NaN old = old.
Proof. unfold tick_rule. by destruct (truthy alive). Qed.

(** X6. In a state the program can reach, a running tick leaves every
    cell of the first and last rows, and the cells next to them at which
    the count is [NaN], dead. *)
Theorem edge_cells_dead_after_tick (s : GameState) (i : Z) :
  reachable s ->
  isRunning s = true ->
  0 <= i < BUFFER_SIZE ->
  ~ interior i ->
  get (current (tick s)) i = Some false.
Proof.
  intros Hreach Hrun Hi Hedge.
  destruct (reachable_ok s Hreach) as ([Hlc Hgc] & [Hln Hgn] & Hint).
  rewrite tick_running_get; [|done|rewrite Hlc; lia].
  rewrite findNeighbors_edge_NaN; [|done|unfold interior in Hedge; lia].
  rewrite tick_rule_NaN.
  destruct (Hgn i Hi) as [[] Hv]; [|done].
  by apply Hint in Hv.
Qed.

Lemma edge_cells_dead_after_tick_witness :
  get (current (tick corner_cell_state)) 99 = Some false.
Proof.
  apply (edge_cells_dead_after_tick corner_cell_state 99).
  - apply reachable_run; [apply reachable_init|].
    repeat apply Forall_cons_2; try apply Forall_nil_2; simpl;
      unfold in_grid, CELLS_PER_ROW; lia.
  - reflexivity.
  - vm_compute. split; [discriminate | reflexivity].
  - vm_compute. intros [H _]. apply H. reflexivity.
Defined.

(** X7. Whatever the state before, the tick that follows a reset leaves
    the empty grid: [reset] empties [current] and [next] together. *)
Theorem reset_then_tick_empty (s : GameState) :
  current (tick (reset s)) = createBuffer BUFFER_SIZE false /\
  next (tick (reset s)) = createBuffer BUFFER_SIZE false.
Proof.
  destruct (isRunning s) eqn:Hrun.
  - pose proof (tick_running (reset s) Hrun) as E.
    assert (Hsame : next (tick (reset s)) = current (tick (reset s)))
      by exact (eq_trans (f_equal next E) (eq_sym (f_equal current E))).
    clear E. split; [|etransitivity; [exact Hsame|]]; clear Hsame;
      apply empty_tick; reflexivity || exact Hrun.
  - by rewrite tick_idle.
Qed.

(** ** diffBuffers *)

(** X8. The mask of an array against itself is false at every slot that
    holds a boolean (and empty where the array is). *)
Theorem diffBuffers_self (a : CellPool) :
  diffBuffers a a =
    (fun slot : option bool => (fun _ : bool => false) <$> slot) <$> a.
Proof.
  apply list_eq. intros i. unfold diffBuffers.
  rewrite list_lookup_imap, list_lookup_fmap.
  destruct (a !! i) as [[c|]|] eqn:Ha; simpl; [|done|done].
  rewrite get_lookup, Ha. simpl. by destruct c.
Qed.

(** X9. On two arrays of booleans of one length the mask does not depend
    on the order of the arguments. *)
Theorem diffBuffers_sym (a b : list bool) :
  length a = length b ->
  diffBuffers (Some <$> a) (Some <$> b) = diffBuffers (Some <$> b) (Some <$> a).
Proof.
  intros Hlen. rewrite !diffBuffers_dense by done. f_equal.
  apply list_eq. intros i. rewrite !lookup_zip_with.
  destruct (a !! i) as [x|], (b !! i) as [y|]; simpl; try done.
  by destruct x, y.
Qed.

Lemma diffBuffers_sym_witness :
  diffBuffers (Some <$> [true; false]) (Some <$> [false; false]) =
  diffBuffers (Some <$> [false; false]) (Some <$> [true; false]).
Proof. apply (diffBuffers_sym [true; false] [false; false]). reflexivity. Defined.

(** X10. The mask has the length of the first array, and a cell of the
    first array for which the second has no value ([b] is shorter, or has
    an empty slot there) is marked as changed. *)
Theorem diffBuffers_missing (a b : CellPool) (i : Z) (x : bool) :
  get a i = Some x ->
  get b i = None ->
  length (diffBuffers a b) = length a /\
  get (diffBuffers a b) i = Some true.
Proof.
  intros Ha Hb. split; [apply diffBuffers_length|].
  pose proof (get_is_Some_range _ _ _ Ha) as Hi.
  unfold diffBuffers. unfold get at 1. rewrite decide_True by lia.
  rewrite list_lookup_imap. rewrite Z2Nat.id by lia.
  unfold get in Ha. rewrite decide_True in Ha by lia.
  destruct (a !! Z.to_nat i) as [[c|]|]; simplify_eq/=.
  by rewrite Hb.
Qed.

Lemma diffBuffers_missing_witness :
  get (diffBuffers [Some false; Some false] [Some false]) 1 = Some true.
Proof.
  apply (diffBuffers_missing [Some false; Some false] [Some false] 1 false);
    reflexivity.
Defined.

(** ** render *)

Lemma diffBuffers_get (a b : CellPool) (i : Z) :
  get (diffBuffers a b) i = (fun x => strict_ne x (get b i)) <$> get a i.
Proof.
  destruct (decide (0 <= i)) as [Hi|Hi].
  - unfold diffBuffers. unfold get at 1 4. rewrite !decide_True by done.
    rewrite list_lookup_imap. rewrite Z2Nat.id by done.
    by destruct (a !! Z.to_nat i) as [[c|]|].
  - by rewrite !get_negative by lia.
Qed.

Lemma diffBuffers_self_falsy (a : CellPool) (i : Z) :
  truthy (get (diffBuffers a a) i) = false.
Proof.
  rewrite diffBuffers_get. destruct (get a i) as [[]|]; done.
Qed.

Lemma peek_ext (d1 d2 : list Z) :
  length d1 = length d2 -> (forall k, peek d1 k = peek d2 k) -> d1 = d2.
Proof.
  intros Hlen Hpeek. apply list_eq. intros i.
  specialize (Hpeek (Z.of_nat i)). unfold peek in Hpeek.
  rewrite !decide_True in Hpeek by lia. by rewrite Nat2Z.id in Hpeek.
Qed.

Lemma count_changed_S (chg : CellPool) (n : nat) :
  count_changed chg (S n) =
    count_changed chg n + (if truthy (get chg (Z.of_nat n)) then 1 else 0).
Proof.
  unfold count_changed. rewrite seq_S, filter_app, length_app. simpl.
  rewrite filter_cons, filter_nil.
  destruct (truthy (get chg (Z.of_nat n))) eqn:Ht.
  - rewrite decide_True by done. simpl. lia.
  - rewrite decide_False by done. simpl. lia.
Qed.

Lemma count_changed_none (chg : CellPool) (n : nat) :
  (forall i, truthy (get chg i) = false) -> count_changed chg n = 0.
Proof.
  intros Hnone. induction n as [|n IH]; [done|].
  by rewrite count_changed_S, IH, Hnone.
Qed.

Lemma render_prefix_bits (cur chg : CellPool) (n : nat) (bits : Z)
    (data : list Z) :
  (for_loop n (render_body cur chg) (bits, data)).1 = bits + count_changed chg n.
Proof.
  induction n as [|n IH].
  - rewrite for_loop_0. unfold count_changed. simpl. lia.
  - rewrite for_loop_S, count_changed_S.
    destruct (for_loop n (render_body cur chg) (bits, data)) as [b d].
    simpl in IH. unfold render_body.
    destruct (truthy (get chg (Z.of_nat n))); simpl; lia.
Qed.

(** [render] field by field. *)
Lemma render_eq (s : GameState) :
  render s =
    {| isRunning := isRunning s;
       isMousePressed := isMousePressed s;
       bitsChanged :=
         count_changed (diffBuffers (current s) (previous s))
                       (length (current s));
       previous := previous s;
       current := current s;
       next := next s;
       changed := diffBuffers (current s) (previous s);
       pixels :=
         (render_loop (current s) (diffBuffers (current s) (previous s))
                      (0, pixels s)).2 |}.
Proof.
  unfold render. simpl.
  pose proof (render_prefix_bits (current s)
                (diffBuffers (current s) (previous s))
                (length (current s)) 0 (pixels s)) as Hbits.
  fold (render_loop (current s) (diffBuffers (current s) (previous s))
          (0, pixels s)) in Hbits.
  destruct (render_loop _ _ _) as [b d]. simpl in *. subst b.
  unfold with_render. simpl. f_equal.
Qed.

Lemma render_loop_peek (cur chg : CellPool) (bits : Z) (data : list Z) :
  let data' := (render_loop cur chg (bits, data)).2 in
  length data' = length data /\
  forall k, peek data' k =
    if decide (0 <= k / 4 < Z.of_nat (length cur) /\
               truthy (get chg (k / 4)) = true)
    then (fun _ => pixel_byte cur k) <$> peek data k
    else peek data k.
Proof. apply render_prefix. Qed.

(** X11. After [render], [bitsChanged] is the number of cells of
    [current] marked in the new mask [changed], the mask of [current]
    against [previous]. *)
Theorem render_counts_changed (s : GameState) :
  changed (render s) = diffBuffers (current s) (previous s) /\
  bitsChanged (render s) = count_changed (changed (render s)) (length (current s)).
Proof. by rewrite render_eq. Qed.

Lemma render_unchanged_grid (s : GameState) :
  previous s = current s ->
  bitsChanged (render s) = 0 /\ pixels (render s) = pixels s.
Proof.
  intros Hprev. rewrite render_eq. simpl. rewrite Hprev. split.
  - apply count_changed_none. apply diffBuffers_self_falsy.
  - destruct (render_loop_peek (current s) (diffBuffers (current s) (current s))
                0 (pixels s)) as [Hlen Hpeek].
    apply peek_ext; [done|]. intros k. rewrite Hpeek.
    rewrite decide_False; [done|].
    intros [_ Ht]. by rewrite diffBuffers_self_falsy in Ht.
Qed.

(** X12. The [render] that follows a tick with the run flag off draws
    nothing: the tick has made [previous] a copy of [current], no cell is
    marked, [bitsChanged] is 0 and the image is the one before. *)
Theorem render_after_idle_tick (s : GameState) :
  isRunning s = false ->
  bitsChanged (render (tick s)) = 0 /\
  pixels (render (tick s)) = pixels s.
Proof.
  intros Hidle. rewrite tick_idle by done.
  by apply (render_unchanged_grid (with_previous (cloneBuffer (current s)) s)).
Qed.

Lemma render_after_idle_tick_witness :
  bitsChanged (render (tick state0)) = 0 /\
  pixels (render (tick state0)) = pixels state0.
Proof. apply (render_after_idle_tick state0). reflexivity. Defined.

Lemma render_loop_cell (cur chg : CellPool) (bits : Z) (data : list Z)
    (i k : Z) :
  0 <= i < Z.of_nat (length cur) ->
  4 * i <= k < 4 * i + 4 ->
  peek (render_loop cur chg (bits, data)).2 k =
    if truthy (get chg i) then (fun _ => pixel_byte cur k) <$> peek data k
    else peek data k.
Proof.
  intros Hi Hk. destruct (cell_of_byte i k Hk) as [Hdiv _].
  destruct (render_loop_peek cur chg bits data) as [_ Hpeek].
  rewrite Hpeek, Hdiv.
  destruct (truthy (get chg i)).
  - by rewrite decide_True.
  - rewrite decide_False; [done | intros [_ [=]]].
Qed.

Lemma render_depicts_current (s : GameState) :
  4 * Z.of_nat (length (current s)) <= Z.of_nat (length (pixels s)) ->
  depicts (pixels s) (previous s) ->
  depicts (pixels (render s)) (current s).
Proof.
  intros Hlen Hprev i alive Halive.
  pose proof (get_is_Some_range _ _ _ Halive) as Hi.
  rewrite render_eq. simpl.
  assert (Hbyte : forall k, 4 * i <= k < 4 * i + 4 ->
            peek (render_loop (current s) (diffBuffers (current s) (previous s))
                    (0, pixels s)).2 k =
            Some (if decide (k = 4 * i + 3) then 255
                  else if alive then 0 else 255)).
  { intros k Hk. rewrite (render_loop_cell _ _ _ _ i) by done.
    rewrite diffBuffers_get, Halive. simpl.
    destruct (strict_ne alive (get (previous s) i)) eqn:Hne.
    - assert (Hold : is_Some (peek (pixels s) k)).
      { unfold peek. rewrite decide_True by lia.
        apply lookup_lt_is_Some_2. lia. }
      destruct Hold as [old ->]. simpl. f_equal. by apply pixel_byte_at.
    - assert (Hsame : get (previous s) i = Some alive).
      { destruct (get (previous s) i) as [d|]; [|done].
        simpl in Hne. by destruct alive, d. }
      destruct (Hprev i alive Hsame) as (H0 & H1 & H2 & H3).
      assert (Hcases : k = 4 * i \/ k = 4 * i + 1 \/ k = 4 * i + 2
                       \/ k = 4 * i + 3) by lia.
      destruct Hcases as [-> | [-> | [-> | ->]]];
        rewrite ?H0, ?H1, ?H2, ?H3; f_equal;
        repeat case_decide; first [done | lia]. }
  rewrite !Hbyte by lia.
  rewrite !decide_False by lia. by rewrite decide_True.
Qed.

(** X13. Drawing only the marked cells is enough: if the image is large
    enough for [current] and shows [previous] before [render], it shows
    [current] after it. *)
Theorem render_depicts (s : GameState) :
  4 * Z.of_nat (length (current s)) <= Z.of_nat (length (pixels s)) ->
  depicts (pixels s) (previous s) ->
  depicts (pixels (render s)) (current s).
Proof. apply render_depicts_current. Qed.

Lemma render_depicts_witness :
  let s := mkState false false 0 [Some false] [Some true] [Some false] []
                   [255; 255; 255; 255] in
  depicts (pixels (render s)) (current s).
Proof.
  intros s. apply (render_depicts s).
  - vm_compute. discriminate.
  - intros i alive Hget.
    pose proof (get_is_Some_range _ _ _ Hget) as Hi. simpl in Hi.
    assert (i = 0) as -> by lia.
    vm_compute in Hget. injection Hget as <-.
    vm_compute. by repeat split.
Defined.

(** X14. One iteration of the loop of [main] keeps the image in step with
    the snapshot: if the image shows [previous] before [render], then
    after [render] and [tick] it shows the new [previous]. *)
Theorem frame_depicts_previous (s : GameState) :
  4 * Z.of_nat (length (current s)) <= Z.of_nat (length (pixels s)) ->
  depicts (pixels s) (previous s) ->
  depicts (pixels (frame s)) (previous (frame s)).
Proof.
  intros Hlen Hprev. pose proof (render_depicts_current s Hlen Hprev) as Hcur.
  assert (Hc : current (render s) = current s) by (by rewrite render_eq).
  unfold frame.
  destruct (isRunning (render s)) eqn:Hrun.
  - rewrite tick_running by done. simpl. by rewrite Hc.
  - rewrite tick_idle by done. simpl. unfold cloneBuffer. by rewrite Hc.
Qed.

Lemma frame_depicts_previous_witness :
  let s := mkState false false 0 [Some false] [Some true] [Some false] []
                   [255; 255; 255; 255] in
  depicts (pixels (frame s)) (previous (frame s)).
Proof.
  intros s. apply (frame_depicts_previous s).
  - vm_compute. discriminate.
  - intros i alive Hget.
    pose proof (get_is_Some_range _ _ _ Hget) as Hi. simpl in Hi.
    assert (i = 0) as -> by lia.
    vm_compute in Hget. injection Hget as <-.
    vm_compute. by repeat split.
Defined.

(** X15. [render] twice in a row is [render] once: the second call finds
    the same mask and count and stores the same bytes again. *)
Theorem render_idempotent (s : GameState) :
  render (render s) = render s.
Proof.
  rewrite (render_eq (render s)). rewrite (render_eq s) at 8. simpl.
  rewrite !render_eq. simpl. f_equal.
  set (chg := diffBuffers (current s) (previous s)).
  destruct (render_loop_peek (current s) chg 0 (pixels s)) as [Hlen Hpeek].
  destruct (render_loop_peek (current s) chg 0
              (render_loop (current s) chg (0, pixels s)).2) as [Hlen' Hpeek'].
  apply peek_ext; [done|]. intros k.
  rewrite Hpeek', Hpeek. case_decide; [|done].
  by destruct (peek (pixels s) k).
Qed.

(** X16. The mask computed by the [render] that follows a tick marks the
    cells the tick changed: the tick keeps the generation before it in
    [previous]. *)
Theorem render_marks_tick_changes (s : GameState) (i : Z) (old new : bool) :
  get (current s) i = Some old ->
  get (current (tick s)) i = Some new ->
  get (changed (render (tick s))) i = Some (negb (eqb new old)).
Proof.
  intros Hold Hnew. rewrite render_eq. simpl.
  assert (Hprev : previous (tick s) = current s).
  { destruct (isRunning s) eqn:Hrun;
      [by rewrite tick_running | by rewrite tick_idle]. }
  rewrite diffBuffers_get, Hprev, Hnew, Hold. simpl. by destruct new, old.
Qed.

Lemma render_marks_tick_changes_witness :
  get (changed (render (tick state0))) 0 = Some false.
Proof.
  apply (render_marks_tick_changes state0 0 false false); reflexivity.
Defined.

(** ** The loop of [main] while paused *)

Lemma frame_idle_synced (t : GameState) :
  isRunning t = false ->
  previous t = current t ->
  frame t =
    {| isRunning := false;
       isMousePressed := isMousePressed t;
       bitsChanged := 0;
       previous := current t;
       current := current t;
       next := next t;
       changed := diffBuffers (current t) (current t);
       pixels := pixels t |}.
Proof.
  intros Hidle Hsync.
  destruct (render_unchanged_grid t Hsync) as [Hbits Hpix].
  unfold frame. rewrite tick_idle by (by rewrite render_eq).
  rewrite render_eq in *. simpl in *. unfold with_previous, cloneBuffer. simpl.
  by rewrite Hbits, Hpix, Hidle, Hsync.
Qed.

(** X17. While the simulation is paused and no handler runs, the loop of
    [main] changes nothing from its second iteration on. *)
Theorem idle_frames_settle (s : GameState) :
  isRunning s = false ->
  frame (frame (frame s)) = frame (frame s).
Proof.
  intros Hidle.
  assert (Hidle1 : isRunning (frame s) = false).
  { unfold frame. rewrite tick_idle by (by rewrite render_eq).
    by rewrite render_eq. }
  assert (Hsync1 : previous (frame s) = current (frame s)).
  { unfold frame. rewrite tick_idle by (by rewrite render_eq). done. }
  rewrite (frame_idle_synced (frame s)) by done.
  by rewrite frame_idle_synced.
Qed.

Lemma idle_frames_settle_witness :
  frame (frame (frame state0)) = frame (frame state0).
Proof. apply (idle_frames_settle state0). reflexivity. Defined.

(** ** randomize *)

(** X18. The random button overwrites every slot of [current] with the
    outcome drawn for it and keeps the length: what [current] held before
    plays no part in the result. *)
Theorem randomize_overwrites_all (rnd : Z -> bool) (s : GameState) :
  current (randomize rnd s) =
    (fun i => Some (rnd (Z.of_nat i))) <$> seq 0 (length (current s)).
Proof.
  unfold randomize. simpl.
  destruct (randomize_prefix rnd (current s) (length (current s)))
    as [Hlen Hget]; [done|].
  apply list_eq. intros i. rewrite list_lookup_fmap.
  destruct (decide (i < length (current s))%nat) as [Hi|Hi].
  - rewrite lookup_seq_lt by done. simpl.
    specialize (Hget (Z.of_nat i)). rewrite decide_True in Hget by lia.
    rewrite get_lookup in Hget.
    by destruct (_ !! i) as [[v|]|]; simplify_eq/=.
  - rewrite lookup_seq_ge by lia. simpl.
    apply lookup_ge_None_2. lia.
Qed.

(** ** The pointer handlers *)

Lemma draw_released (x y buttons : Z) (s : GameState) :
  isMousePressed s = false -> draw x y buttons s = s.
Proof. intros Hs. unfold draw. by rewrite Hs. Qed.

(** X19. With the button held, [draw] writes one cell of [current]:
    [true] when [event.buttons] is 1, [false] when it is 2, and nothing
    for any other value (both buttons together give 3).  [next] is not
    written. *)
Theorem draw_writes_one_cell (x y buttons : Z) (s : GameState) (j : Z) :
  isMousePressed s = true ->
  0 <= y * CELLS_PER_ROW + x ->
  get (current (draw x y buttons s)) j =
    (if decide (j = y * CELLS_PER_ROW + x /\ (buttons = 1 \/ buttons = 2))
     then Some (bool_decide (buttons = 1))
     else get (current s) j) /\
  next (draw x y buttons s) = next s.
Proof.
  intros Hpressed Hidx. unfold draw. rewrite Hpressed. simpl.
  destruct (decide (buttons = 1)) as [->|H1].
  - simpl. split; [|done]. rewrite get_assign by done.
    case_decide as Hj.
    + subst j. rewrite decide_True; [done | by split; [|left]].
    + rewrite decide_False; [done | intros [? _]; done].
  - rewrite (bool_decide_eq_false_2 _ H1).
    destruct (decide (buttons = 2)) as [->|H2].
    + simpl. split; [|done]. rewrite get_assign by done.
      case_decide as Hj.
      * subst j. rewrite decide_True; [done | by split; [|right]].
      * rewrite decide_False; [done | intros [? _]; done].
    + rewrite (bool_decide_eq_false_2 _ H2). split; [|done].
      rewrite decide_False; [done | intros [_ [?|?]]; done].
Qed.

Lemma draw_writes_one_cell_witness :
  let s := with_isMousePressed true state0 in
  get (current (draw 3 2 1 s)) 203 = Some true /\
  next (draw 3 2 1 s) = next s.
Proof.
  intros s.
  destruct (draw_writes_one_cell 3 2 1 s 203) as [Hget Hnext];
    [reflexivity | vm_compute; discriminate |].
  split; [|exact Hnext].
  etransitivity; [exact Hget|]. reflexivity.
Defined.

(** X20. Releasing the button never paints, and no move or click paints
    until the button is pressed again: [onmouseup] clears the flag before
    it calls [draw]. *)
Theorem release_stops_painting (x y buttons : Z) (es : list event)
    (s : GameState) :
  Forall is_move es ->
  current (onmouseup x y buttons s) = current s /\
  run es (onmouseup x y buttons s) = onmouseup x y buttons s.
Proof.
  intros Hes.
  assert (Hup : onmouseup x y buttons s = with_isMousePressed false s)
    by (unfold onmouseup; by rewrite draw_released).
  rewrite Hup. split; [done|].
  induction Hes as [|e es He _ IH]; [done|].
  destruct e; simpl in He; try done.
Qed.

Lemma release_stops_painting_witness :
  run [MouseMove 1 1 1; MouseMove 2 2 1] (onmouseup 0 0 0 block_state)
    = onmouseup 0 0 0 block_state.
Proof.
  apply (release_stops_painting 0 0 0 [MouseMove 1 1 1; MouseMove 2 2 1]
           block_state).
  repeat constructor.
Defined.

(** ** The shape of the buffers *)

Lemma full_diffBuffers (a b : CellPool) : full a -> full (diffBuffers a b).
Proof.
  intros [Hlen Hget]. split; [by rewrite diffBuffers_length|].
  intros i Hi. rewrite diffBuffers_get.
  destruct (Hget i Hi) as [v ->]. by eexists.
Qed.

Lemma draw_frame (x y buttons : Z) (s : GameState) :
  previous (draw x y buttons s) = previous s /\
  changed (draw x y buttons s) = changed s /\
  pixels (draw x y buttons s) = pixels s.
Proof.
  unfold draw. destruct (negb (isMousePressed s)); [done|].
  by destruct (bool_decide (buttons = 1)), (bool_decide (buttons = 2)).
Qed.

Lemma tick_frame (s : GameState) :
  previous (tick s) = current s /\
  changed (tick s) = changed s /\
  pixels (tick s) = pixels s.
Proof.
  destruct (isRunning s) eqn:Hrun;
    [by rewrite tick_running | by rewrite tick_idle].
Qed.

Lemma reachable_rest (s : GameState) :
  reachable s ->
  full (previous s) /\ full (changed s) /\
  length (pixels s) = Z.to_nat (4 * BUFFER_SIZE).
Proof.
  induction 1 as [|e s Hs (Hp & Hc & Hpix) He].
  - split; [apply full_createBuffer|]. split; [apply full_createBuffer|].
    change (pixels state0)
      with (replicate (Z.to_nat (4 * (CELLS_PER_ROW * CELLS_PER_ROW))) 0).
    apply length_replicate.
  - destruct (reachable_ok s Hs) as (Hcur & _ & _).
    destruct e; simpl.
    + destruct (tick_frame s) as (-> & -> & ->). done.
    + rewrite render_eq. simpl.
      destruct (render_loop_peek (current s)
                  (diffBuffers (current s) (previous s)) 0 (pixels s))
        as [Hl _].
      split; [done|]. split; [by apply full_diffBuffers|]. by rewrite Hl.
    + done.
    + done.
    + done.
    + unfold onmousedown.
      destruct (draw_frame x y buttons (with_isMousePressed true s))
        as (-> & -> & ->). done.
    + done.
    + destruct (draw_frame x y buttons s) as (-> & -> & ->). done.
Qed.

(** X21. In every state the program can reach, the four cell buffers are
    arrays of exactly [BUFFER_SIZE] booleans without an empty slot and
    the image has four bytes per cell: no handler and no tick grows,
    shrinks or punches a hole into a buffer. *)
Theorem reachable_shape (s : GameState) : reachable s -> shape_ok s.
Proof.
  intros Hs.
  destruct (reachable_ok s Hs) as (Hcur & Hnext & _).
  destruct (reachable_rest s Hs) as (Hp & Hc & Hpix).
  unfold shape_ok. tauto.
Qed.

Lemma reachable_shape_witness : shape_ok corner_cell_state.
Proof.
  apply (reachable_shape corner_cell_state).
  apply reachable_run; [apply reachable_init|].
  repeat apply Forall_cons_2; try apply Forall_nil_2; simpl;
    unfold in_grid, CELLS_PER_ROW; lia.
Defined.

Lemma count_changed_bounds (chg : CellPool) (n : nat) :
  0 <= count_changed chg n <= Z.of_nat n.
Proof.
  induction n as [|n IH]; [unfold count_changed; simpl; lia|].
  rewrite count_changed_S. destruct (truthy _); lia.
Qed.

(** X22. The count reported after [render] lies between 0 and the number
    of cells of [current]. *)
Theorem render_bits_bounds (s : GameState) :
  0 <= bitsChanged (render s) <= Z.of_nat (length (current s)).
Proof. rewrite render_eq. simpl. apply count_changed_bounds. Qed.

(** ** Painting on an empty [next] *)

(** X23. When [next] holds the empty grid, as in the initial state and
    after a reset, a running tick keeps none of the cells of [current]:
    the committed generation is exactly the set of cells born (dead with
    a count of 3), so every cell that was alive, painted or drawn at
    random, is dead after the tick. *)
Theorem tick_on_empty_next (s : GameState) (i : Z) :
  isRunning s = true ->
  next s = createBuffer BUFFER_SIZE false ->
  length (current s) = Z.to_nat BUFFER_SIZE ->
  0 <= i < BUFFER_SIZE ->
  get (current (tick s)) i =
    Some (negb (truthy (get (current s) i)) &&
          strict_eq (findNeighbors (current s) i) (Num 3)) /\
  (truthy (get (current s) i) = true -> get (current (tick s)) i = Some false).
Proof.
  intros Hrun Hnext Hlen Hi.
  assert (Hget : get (current (tick s)) i =
            Some (negb (truthy (get (current s) i)) &&
                  strict_eq (findNeighbors (current s) i) (Num 3))).
  { rewrite tick_running_get; [|done|rewrite Hlen; lia].
    rewrite Hnext, get_createBuffer, decide_True by done.
    apply tick_rule_dead_next. }
  split; [done|]. intros Halive. by rewrite Hget, Halive.
Qed.

Lemma tick_on_empty_next_witness :
  get (current (tick block_state)) 4949 = Some false.
Proof.
  destruct (tick_on_empty_next block_state 4949) as [_ Hdead].
  - reflexivity.
  - exact (proj2 (proj2 block_state_fields)).
  - etransitivity;
      [exact (f_equal length (proj1 (proj2 block_state_fields)))|].
    vm_compute. reflexivity.
  - vm_compute. split; [discriminate | reflexivity].
  - apply Hdead.
    exact (eq_ind_r (x := block_buffer)
             (fun b => truthy (get b 4949) = true) eq_refl
             (proj1 (proj2 block_state_fields))).
Defined.

(** ** An isolated cell, inside the grid and on its edge *)

(** Where the eight positions read hold dead cells, the count is 0 and
    the loop writes [false]: the cell dies whatever [next] held. *)
Lemma isolated_interior_dies (s : GameState) (i : Z) :
  isRunning s = true ->
  get (current s) i = Some true ->
  Forall (fun j => get (current s) j = Some false) (neighbor_indices i) ->
  get (current (tick s)) i = Some false.
Proof.
  intros Hrun Hlive Hdead.
  pose proof (get_is_Some_range _ _ _ Hlive) as Hi.
  rewrite tick_running_get by done. rewrite Hlive.
  rewrite findNeighbors_count, count_from_defined.
  - rewrite lives_none; [done|].
    eapply Forall_impl; [exact Hdead|]. simpl. intros j Hj. by rewrite Hj.
  - eapply Forall_impl; [exact Hdead|]. simpl. intros j Hj. by rewrite Hj.
Qed.


